(** * kepp: the video upload / catalogue glue (js/vidio.js, AuthManager)

    A shallow embedding of [VideoManager] (src/js/vidio.js) and of
    [AuthManager.getCurrentUser], on which it depends.  The Supabase client
    is a third-party library: it appears here as an interface
    ([SupabaseClient]) whose methods act on an abstract backend state, and
    every call made through it is recorded in a trace, so that statements
    such as "no storage call is made" can be read off the trace. *)

From stdpp Require Import gmap strings list fin_maps.
From Stdlib Require Import ZArith Ascii DecimalString DecimalPos DecimalZ.

Set Warnings "-register-all,-clear-no-such-hyp".
Local Open Scope Z_scope.

(** ** JavaScript values and objects *)

(** The JSON-like values that cross the client boundary.  Numbers are the
    integers the code handles (sizes, durations, timestamps). *)
Inductive value : Type :=
  | VNull
  | VBool (b : bool)
  | VNum (n : Z)
  | VStr (s : string)
  | VObj (fields : gmap string value).

(** A plain object: [o !! k = None] is JavaScript's [o.k === undefined]. *)
Abbreviation obj := (gmap string value).

(** [a === b] on property reads.  Primitives compare by value, [undefined]
    only equals [undefined]; objects compare by identity, and two objects
    decoded from two responses are never the same object. *)
Definition strict_eq (a b : option value) : bool :=
  match a, b with
  | None, None => true
  | Some VNull, Some VNull => true
  | Some (VBool x), Some (VBool y) => Bool.eqb x y
  | Some (VNum x), Some (VNum y) => Z.eqb x y
  | Some (VStr x), Some (VStr y) => String.eqb x y
  | _, _ => false
  end.

(** [{ ...o, k: v }] *)
Definition spread_with (o : obj) (k : string) (v : value) : obj := <[k := v]> o.

(** [Array.prototype.find] *)
Fixpoint find {A : Type} (p : A → bool) (l : list A) : option A :=
  match l with
  | [] => None
  | x :: l' => if p x then Some x else find p l'
  end.

(** [Array.prototype.includes] on strings *)
Definition includes (l : list string) (s : string) : bool :=
  existsb (String.eqb s) l.

(** [[...new Set(l)]]: first occurrences, in order *)
Fixpoint new_Set (seen l : list (option value)) : list (option value) :=
  match l with
  | [] => []
  | x :: l' =>
      if existsb (strict_eq x) seen then new_Set seen l'
      else x :: new_Set (seen ++ [x]) l'
  end.

(** ** Strings *)

(** [String(n)] for an integer *)
Definition string_of_Z (n : Z) : string := NilZero.string_of_int (Z.to_int n).

(** [s.substring(n)] *)
Definition substring_from (n : nat) (s : string) : string :=
  String.substring n (String.length s - n)%nat s.

(** [s.split(c)] for a one-character separator *)
Fixpoint split (c : ascii) (s : string) : list string :=
  match s with
  | EmptyString => [EmptyString]
  | String a s' =>
      if Ascii.eqb a c then EmptyString :: split c s'
      else match split c s' with
           | [] => [String a EmptyString]
           | h :: t => String a h :: t
           end
  end.

(** [l.pop()] rendered inside a template literal: [undefined] prints as such *)
Definition pop_str (l : list string) : string := default "undefined" (last l).

(** ** The collaborators *)

Record File := { file_name : string; file_size : Z; file_type : string }.
Record User := { user_id : string }.
Record Err := { message : string }.

(** The [{ data, error }] pair every Supabase call resolves to. *)
Record Response (A : Type) := { data : option A; error : option Err }.
Arguments data {A} _.
Arguments error {A} _.
Arguments Build_Response {A} _ _.

Record UploadData := { path : string }.

(** What the client did while a storage upload was in flight: the
    [(loaded, total)] pairs it reported to [onUploadProgress]. *)
Definition Progress : Type := list (Z * Z).

(** The part of the Supabase client the two managers use, acting on a
    backend state [B]. *)
Class SupabaseClient (B : Type) := {
  (* supabase.auth.getUser() : { data: { user }, error }; [data] below is that [user] *)
  auth_getUser : B → B * Response User;
  (* supabase.storage.from(bucket).upload(path, file, { cacheControl, upsert, onUploadProgress }) *)
  storage_upload : string → string → File → string → bool → B → B * Progress * Response UploadData;
  (* supabase.storage.from(bucket).getPublicUrl(path).data.publicUrl *)
  storage_getPublicUrl : string → string → B → string;
  (* supabase.from(table).insert(rows).select() *)
  db_insert : string → list obj → B → B * Response (list obj);
  (* supabase.from(table).select(cols).order(col, { ascending }) *)
  db_select_order : string → string → string → bool → B → B * Response (list obj);
  (* supabase.from(table).select(cols).in(col, values) *)
  db_select_in : string → string → string → list (option value) → B → B * Response (list obj);
  (* supabase.from(table).select(cols).eq(col, v).single() *)
  db_select_single : string → string → string → value → B → B * Response obj
}.

(** What [single()] promises, for [matching] the rows a query selects: it
    answers with an error unless exactly one row is selected. *)
Definition single_contract {B : Type} `{SupabaseClient B}
    (matching : B → string → string → value → list obj) : Prop :=
  ∀ table columns column v b,
    match matching b table column v with
    | [r] => (db_select_single table columns column v b).2 =
               {| data := Some r; error := None |}
    | _ => is_Some (error (db_select_single table columns column v b).2)
    end.

(** Everything observable a call does besides returning. *)
Inductive Event : Type :=
  | EvAuthGetUser
  | EvStorageUpload (bucket key : string) (file : File) (cacheControl : string) (upsert : bool)
  | EvOnProgress (loaded total : Z)
  | EvGetPublicUrl (bucket key : string)
  | EvInsert (table : string) (rows : list obj)
  | EvSelectOrder (table columns column : string) (ascending : bool)
  | EvSelectIn (table columns column : string) (values : list (option value))
  | EvSelectSingle (table columns column : string) (v : value)
  | EvConsoleError (label : string) (e : Err).

(** Calls that reach the storage client or the metadata store. *)
Definition is_storage_call (e : Event) : bool :=
  match e with
  | EvStorageUpload _ _ _ _ _ | EvGetPublicUrl _ _ => true
  | _ => false
  end.

Definition is_db_call (e : Event) : bool :=
  match e with
  | EvInsert _ _ | EvSelectOrder _ _ _ _ | EvSelectIn _ _ _ _ | EvSelectSingle _ _ _ _ => true
  | _ => false
  end.

(** A trace is quiet when nothing in it reaches storage or the database. *)
Definition quiet (t : list Event) : Prop :=
  Forall (λ e, is_storage_call e = false ∧ is_db_call e = false) t.

(** ** The effect monad: backend state, trace, exceptions *)

Definition M (B A : Type) : Type := B → B * list Event * (Err + A).

Definition ret {B A} (a : A) : M B A := λ b, (b, [], inr a).

Definition bind {B A C} (m : M B A) (k : A → M B C) : M B C := λ b,
  match m b with
  | (b1, t1, inl e) => (b1, t1, inl e)
  | (b1, t1, inr a) =>
      match k a b1 with
      | (b2, t2, r) => (b2, t1 ++ t2, r)
      end
  end.

Definition throw {B A} (e : Err) : M B A := λ b, (b, [], inl e).

(** [try { m } catch (error) { h error }] *)
Definition try_catch {B A} (m : M B A) (h : Err → M B A) : M B A := λ b,
  match m b with
  | (b1, t1, inl e) =>
      match h e b1 with
      | (b2, t2, r) => (b2, t1 ++ t2, r)
      end
  | r => r
  end.

Definition emit {B} (e : Event) : M B unit := λ b, (b, [e], inr tt).

(** [if (c) throw e;] *)
Definition throw_if {B} (c : bool) (e : Err) : M B unit :=
  if c then throw e else ret tt.

#[global] Instance M_ret {B} : MRet (M B) := λ A, ret.
#[global] Instance M_bind {B} : MBind (M B) := λ A C k m, bind m k.

(** The uniform [{ success, ... }] shape every public operation returns. *)
Inductive Result (A : Type) : Type :=
  | Success (payload : A)
  | Failure (error_message : string).
Arguments Success {A} _.
Arguments Failure {A} _.

(** [new Error(msg)] *)
Definition Error (msg : string) : Err := {| message := msg |}.

(** Reading a property of [null]: the [TypeError] the engine throws. *)
Definition TypeError_null (prop : string) : Err :=
  Error ("Cannot read properties of null (reading '" ++ prop ++ "')").

(** The readings a call takes from its surroundings: [Date.now()],
    [Math.random().toString(36)] and [new Date().toISOString()]. *)
Record Ambient := { Date_now : Z; random_toString36 : string; toISOString : string }.

Section Managers.
Context {B : Type} `{client : SupabaseClient B}.

(** Client calls, lifted into [M] with their trace entry. *)
Definition call_getUser : M B (Response User) := λ b,
  let '(b', r) := auth_getUser b in (b', [EvAuthGetUser], inr r).

Definition call_upload (bucket key : string) (file : File)
    (cacheControl : string) (upsert : bool) (onProgress : bool)
    : M B (Response UploadData) := λ b,
  let '(b', pr, r) := storage_upload bucket key file cacheControl upsert b in
  (b',
   EvStorageUpload bucket key file cacheControl upsert ::
     (if onProgress then (λ p, EvOnProgress p.1 p.2) <$> pr else []),
   inr r).

Definition call_getPublicUrl (bucket key : string) : M B string := λ b,
  (b, [EvGetPublicUrl bucket key], inr (storage_getPublicUrl bucket key b)).

Definition call_insert (table : string) (rows : list obj) : M B (Response (list obj)) := λ b,
  let '(b', r) := db_insert table rows b in (b', [EvInsert table rows], inr r).

Definition call_select_order (table columns column : string) (ascending : bool)
    : M B (Response (list obj)) := λ b,
  let '(b', r) := db_select_order table columns column ascending b in
  (b', [EvSelectOrder table columns column ascending], inr r).

Definition call_select_in (table columns column : string) (vs : list (option value))
    : M B (Response (list obj)) := λ b,
  let '(b', r) := db_select_in table columns column vs b in
  (b', [EvSelectIn table columns column vs], inr r).

Definition call_select_single (table columns column : string) (v : value)
    : M B (Response obj) := λ b,
  let '(b', r) := db_select_single table columns column v b in
  (b', [EvSelectSingle table columns column v], inr r).

(** *** AuthManager.getCurrentUser *)
Definition getCurrentUser : M B (option User) :=
  try_catch
    (r ← call_getUser;
     match error r with
     | Some e => throw e
     | None => mret (data r)
     end)
    (λ e, emit (EvConsoleError "Get user error:" e);; mret None).

(** *** VideoManager.uploadVideo *)

Definition validTypes : list string :=
  ["video/mp4"; "video/quicktime"; "video/x-msvideo"; "video/mpeg"].

Definition msg_not_authenticated : string := "User not authenticated".
Definition msg_invalid_type : string :=
  "Hanya file video yang diperbolehkan (MP4, MOV, AVI, MPEG)".
Definition msg_too_large : string := "File terlalu besar! Maksimal 50MB.".

Definition max_size : Z := 50 * 1024 * 1024.

(** [`videos/${user.id}/${Date.now()}-${Math.random().toString(36).substring(7)}.${fileExt}`] *)
Definition storage_key (uid : string) (now : Z) (rnd36 : string) (fileExt : string) : string :=
  "videos/" ++ uid ++ "/" ++ string_of_Z now ++ "-" ++ substring_from 7 rnd36
    ++ "." ++ fileExt.

Definition fileExt_of (file : File) : string := pop_str (split "." (file_name file)).

(** The record handed to [insert]. *)
Definition video_record (title description : string) (file : File)
    (storage_path video_url uploaded_by created_at : string) : obj :=
  <["title" := VStr title]>
  (<["description" := VStr description]>
  (<["file_name" := VStr (file_name file)]>
  (<["file_size" := VNum (file_size file)]>
  (<["file_type" := VStr (file_type file)]>
  (<["storage_path" := VStr storage_path]>
  (<["video_url" := VStr video_url]>
  (<["uploaded_by" := VStr uploaded_by]>
  (<["duration" := VNum 0]>
  (<["created_at" := VStr created_at]> ∅))))))))).

Definition uploadVideo_try (amb : Ambient) (file : File) (title description : string)
    (onProgress : bool) : M B string :=
  user ← getCurrentUser;
  match user with
  | None => throw (Error msg_not_authenticated)
  | Some user =>
      throw_if (negb (includes validTypes (file_type file))) (Error msg_invalid_type);;
      throw_if (max_size <? file_size file) (Error msg_too_large);;
      let fileExt := fileExt_of file in
      let fileName :=
        storage_key (user_id user) (Date_now amb) (random_toString36 amb) fileExt in
      up ← call_upload "videos" fileName file "3600" false onProgress;
      match error up with
      | Some e => throw e
      | None =>
          match data up with
          | None => throw (TypeError_null "path")
          | Some d =>
              publicUrl ← call_getPublicUrl "videos" (path d);
              ins ← call_insert "videos"
                       [video_record title description file (path d) publicUrl
                          (user_id user) (toISOString amb)];
              match error ins with
              | Some dbError => throw dbError
              | None => mret publicUrl
              end
          end
      end
  end.

(** The [try { ... } catch (error) { console.error(label, error); return
    { success: false, error: error.message } }] wrapper of every method. *)
Definition guarded {A} (label : string) (m : M B A) : B → B * list Event * Result A := λ b,
  match m b with
  | (b1, t1, inr a) => (b1, t1, Success a)
  | (b1, t1, inl e) => (b1, t1 ++ [EvConsoleError label e], Failure (message e))
  end.

Definition uploadVideo (amb : Ambient) (file : File) (title description : string)
    (onProgress : bool) : B → B * list Event * Result string :=
  guarded "Upload error:" (uploadVideo_try amb file title description onProgress).

(** *** VideoManager.getAllVideos *)

(** [{ full_name: 'Unknown User', email: 'unknown@email.com' }] *)
Definition placeholder : obj :=
  <["full_name" := VStr "Unknown User"]> (<["email" := VStr "unknown@email.com"]> ∅).

(** [profiles.find(p => p.id === video.uploaded_by)] *)
Definition find_profile (profiles : list obj) (video : obj) : option obj :=
  find (λ p, strict_eq (p !! "id") (video !! "uploaded_by")) profiles.

(** [{ ...video, profiles: profile || placeholder }]; a found profile is
    an object, hence truthy. *)
Definition with_profile (profiles : list obj) (video : obj) : obj :=
  spread_with video "profiles" (VObj (default placeholder (find_profile profiles video))).

Definition without_profile (video : obj) : obj :=
  spread_with video "profiles" (VObj placeholder).

Definition userIds_of (videos : list obj) : list (option value) :=
  new_Set [] ((λ video, video !! "uploaded_by") <$> videos).

Definition getAllVideos_try : M B (list obj) :=
  vr ← call_select_order "videos" "*" "created_at" false;
  match error vr with
  | Some videosError => throw videosError
  | None =>
      match data vr with
      | None | Some [] => mret []
      | Some videos =>
          pr ← call_select_in "profiles" "id, full_name, email" "id" (userIds_of videos);
          match error pr with
          | Some profilesError =>
              emit (EvConsoleError "Profiles fetch error:" profilesError);;
              mret (without_profile <$> videos)
          | None =>
              match data pr with
              | None => throw (TypeError_null "find")
              | Some profiles => mret (with_profile profiles <$> videos)
              end
          end
      end
  end.

Definition getAllVideos : B → B * list Event * Result (list obj) :=
  guarded "Get videos error:" getAllVideos_try.

(** *** VideoManager.getVideoById *)

(** The column list of the detail query, without the line breaks and the
    indentation of the template literal. *)
Definition detail_columns : string := "*,profiles:uploaded_by(full_name, email)".

(** The payload is [data] as it came: [null] when the client gave none. *)
Definition getVideoById_try (videoId : value) : M B (option obj) :=
  r ← call_select_single "videos" detail_columns "id" videoId;
  match error r with
  | Some e => throw e
  | None => mret (data r)
  end.

Definition getVideoById (videoId : value) : B → B * list Event * Result (option obj) :=
  guarded "Get video error:" (getVideoById_try videoId).

End Managers.

(** ** VideoManager.formatFileSize *)

(** [Math.floor(Math.log(bytes) / Math.log(k))] for [k] a power of two,
    taken at its mathematical value: the integer logarithm.  The quotient
    the engine computes in floating point has the same floor as long as
    the size is positive and stays clear of the large powers of 1024 from
    below (at 2^50 - 1 the quotient rounds to 5.0); everything proved of
    [formatFileSize] is stated for sizes from 0 to below 2^49, where the two
    agree. *)
Definition floor_log (k bytes : Z) : Z := Z.log2 bytes / Z.log2 k.

(** [(num / den).toFixed(2)] as a count of hundredths: the nearest one, the
    larger of two equally near.  [den] is a power of two, so the quotient
    the engine rounds is the exact one. *)
Definition toFixed2 (num den : Z) : Z := (2 * 100 * num + den) / (2 * den).

Definition two_digits (r : Z) : string :=
  (if r <? 10 then "0" else "") ++ string_of_Z r.

(** [parseFloat(s) + ''] for [s] the two-decimal text of [h] hundredths:
    the shortest decimal, that is [s] without its trailing zeros. *)
Definition parseFloat_toString (h : Z) : string :=
  let q := h / 100 in
  let r := h mod 100 in
  if r =? 0 then string_of_Z q
  else if r mod 10 =? 0 then string_of_Z q ++ "." ++ string_of_Z (r / 10)
  else string_of_Z q ++ "." ++ two_digits r.

Definition sizes : list string := ["Bytes"; "KB"; "MB"; "GB"].

Definition formatFileSize (bytes : Z) : string :=
  if bytes =? 0 then "0 Bytes"
  else
    let k := 1024 in
    let i := floor_log k bytes in
    parseFloat_toString (toFixed2 bytes (k ^ i)) ++ " "
      ++ default "undefined" (sizes !! Z.to_nat i).

(** The formatter as the specification words it: the largest of the four
    units whose scaled value is at least 1, two decimals, zero apart. *)
Definition spec_unit (bytes : Z) : nat :=
  if 1024 ^ 3 <=? bytes then 3%nat
  else if 1024 ^ 2 <=? bytes then 2%nat
  else if 1024 <=? bytes then 1%nat
  else 0%nat.

Definition formatSize_spec (bytes : Z) : string :=
  if bytes =? 0 then "0 Bytes"
  else
    let j := spec_unit bytes in
    parseFloat_toString (toFixed2 bytes (1024 ^ Z.of_nat j)) ++ " "
      ++ default "" (sizes !! j).

(** ** An in-memory client

    A small backend that honours the client's documented contract: uploads
    with [upsert: false] refuse an existing key, [single()] reports an error
    unless exactly one row matches.  Outages are switched on by flags. *)
Module MemClient.

Record Mem := {
  mem_user : option User;
  mem_blobs : list string;
  mem_videos : list obj;
  mem_profiles : list obj;
  mem_insert_down : bool;
  mem_profiles_down : bool
}.

Definition ok {A} (a : A) : Response A := {| data := Some a; error := None |}.
Definition failed {A} (msg : string) : Response A :=
  {| data := None; error := Some (Error msg) |}.

Definition upload (bucket key : string) (file : File) (cacheControl : string)
    (upsert : bool) (m : Mem) : Mem * Progress * Response UploadData :=
  if existsb (String.eqb key) (mem_blobs m) && negb upsert
  then (m, [], failed "The resource already exists")
  else ({| mem_user := mem_user m; mem_blobs := key :: mem_blobs m;
           mem_videos := mem_videos m; mem_profiles := mem_profiles m;
           mem_insert_down := mem_insert_down m;
           mem_profiles_down := mem_profiles_down m |},
        [(file_size file, file_size file)], ok {| path := key |}).

Definition insert (table : string) (rows : list obj) (m : Mem) : Mem * Response (list obj) :=
  if mem_insert_down m then (m, failed "insert failed")
  else ({| mem_user := mem_user m; mem_blobs := mem_blobs m;
           mem_videos := rows ++ mem_videos m; mem_profiles := mem_profiles m;
           mem_insert_down := mem_insert_down m;
           mem_profiles_down := mem_profiles_down m |}, ok rows).

Definition select_in (table columns column : string) (vs : list (option value))
    (m : Mem) : Mem * Response (list obj) :=
  if mem_profiles_down m then (m, failed "profiles unavailable")
  else (m, ok (filter (λ p, Is_true (existsb (strict_eq (p !! column)) vs)) (mem_profiles m))).

Definition select_single (table columns column : string) (v : value)
    (m : Mem) : Mem * Response obj :=
  match filter (λ r, Is_true (strict_eq (r !! column) (Some v))) (mem_videos m) with
  | [r] => (m, ok r)
  | _ => (m, failed "JSON object requested, multiple (or no) rows returned")
  end.

#[global] Instance client : SupabaseClient Mem := {|
  auth_getUser m := (m, {| data := mem_user m; error := None |});
  storage_upload := upload;
  storage_getPublicUrl bucket key m := ("https://cdn.example/" ++ bucket ++ "/" ++ key)%string;
  db_insert := insert;
  db_select_order table columns column ascending m := (m, ok (mem_videos m));
  db_select_in := select_in;
  db_select_single := select_single
|}.

Definition alice : User := {| user_id := "u1" |}.
Definition clip : File :=
  {| file_name := "holiday.final.mp4"; file_size := 1536; file_type := "video/mp4" |}.
Definition readings : Ambient :=
  {| Date_now := 1700000000000; random_toString36 := "0.4fzyo82mvyr";
     toISOString := "2023-11-14T22:13:20.000Z" |}.

Definition empty : Mem :=
  {| mem_user := Some alice; mem_blobs := []; mem_videos := []; mem_profiles := [];
     mem_insert_down := false; mem_profiles_down := false |}.

End MemClient.

(** Backends for the scenarios the properties are tried on. *)
Module Scenarios.
Import MemClient.

Definition picture : File :=
  {| file_name := "cat.png"; file_size := 2048; file_type := "image/png" |}.
Definition at_limit : File :=
  {| file_name := "long.mov"; file_size := 52428800; file_type := "video/quicktime" |}.

Definition row (id : Z) (title owner : string) : obj :=
  <["id" := VNum id]> (<["title" := VStr title]> (<["uploaded_by" := VStr owner]> ∅)).
Definition profile (id name mail : string) : obj :=
  <["id" := VStr id]> (<["full_name" := VStr name]> (<["email" := VStr mail]> ∅)).

Definition two_by_alice : list obj := [row 2 "second" "u1"; row 1 "first" "u1"].
Definition with_orphan : list obj := [row 2 "second" "u9"; row 1 "first" "u1"].
Definition alice_profile : obj := profile "u1" "Alice" "alice@example.org".

(** Two videos of one owner, the profile table unreachable. *)
Definition profiles_down : Mem :=
  {| mem_user := Some alice; mem_blobs := []; mem_videos := two_by_alice;
     mem_profiles := [alice_profile];
     mem_insert_down := false; mem_profiles_down := true |}.

(** One video whose owner has no profile, one whose owner has. *)
Definition orphaned : Mem :=
  {| mem_user := Some alice; mem_blobs := []; mem_videos := with_orphan;
     mem_profiles := [alice_profile];
     mem_insert_down := false; mem_profiles_down := false |}.

(** Two readings of the surroundings in one millisecond: [Math.random()]
    gave 0.5, then 0.25. *)
Definition draw_half : Ambient :=
  {| Date_now := 1700000000000; random_toString36 := "0.i";
     toISOString := "2023-11-14T22:13:20.000Z" |}.
Definition draw_quarter : Ambient :=
  {| Date_now := 1700000000000; random_toString36 := "0.9";
     toISOString := "2023-11-14T22:13:20.000Z" |}.

(** Storage up, the [videos] table refusing inserts. *)
Definition insert_down : Mem :=
  {| mem_user := Some alice; mem_blobs := []; mem_videos := []; mem_profiles := [];
     mem_insert_down := true; mem_profiles_down := false |}.

End Scenarios.

(** ** AuthManager

    [getCurrentUser] is above, with the upload that calls it.  The other
    methods follow; sign-up, sign-in and sign-out are calls [VideoManager]
    never makes, so they come with their own slice of the client and their
    own trace entries. *)

Section Profile.
Context {B : Type} `{client : SupabaseClient B}.

(** *** AuthManager.getUserProfile *)
Definition getUserProfile (userId : value) : M B (option obj) :=
  try_catch
    (r ← call_select_single "profiles" "*" "id" userId;
     match error r with
     | Some e => throw e
     | None => mret (data r)
     end)
    (λ e, emit (EvConsoleError "Get profile error:" e);; mret None).

End Profile.

Module Auth.

(** [userData] as the register form hands it over. *)
Record UserData := { email : string; password : string; name : string }.

Class SupabaseAuth (B : Type) := {
  (* supabase.auth.signUp({ email, password, options: { data: { full_name } } })
     : { data: { user }, error }; [data] below is that [user] *)
  auth_signUp : string → string → string → B → B * Response User;
  (* supabase.auth.signInWithPassword({ email, password }) : { data: { user }, error } *)
  auth_signInWithPassword : string → string → B → B * Response User;
  (* supabase.auth.signOut() : { error } *)
  auth_signOut : B → B * option Err;
  (* supabase.from(table).insert(rows) : { error } *)
  db_insert_rows : string → list obj → B → B * option Err
}.

Inductive AuthEvent : Type :=
  | EvSignUp (email password full_name : string)
  | EvSignIn (email password : string)
  | EvSignOut
  | EvInsertRows (table : string) (rows : list obj)
  | EvConsole (label : string) (e : Err).

(** The same monad as [M], over the auth trace. *)
Definition AM (B A : Type) : Type := B → B * list AuthEvent * (Err + A).

#[global] Instance AM_ret {B} : MRet (AM B) := λ A a b, (b, [], inr a).
#[global] Instance AM_bind {B} : MBind (AM B) := λ A C k m b,
  match m b with
  | (b1, t1, inl e) => (b1, t1, inl e)
  | (b1, t1, inr a) =>
      match k a b1 with
      | (b2, t2, r) => (b2, t1 ++ t2, r)
      end
  end.

Definition raise {B A} (e : Err) : AM B A := λ b, (b, [], inl e).
Definition log {B} (label : string) (e : Err) : AM B unit := λ b, (b, [EvConsole label e], inr tt).

(** [try { m } catch (error) { console.error(label, error); return
    { success: false, error: error.message } }] *)
Definition guarded {B A} (label : string) (m : AM B A) : B → B * list AuthEvent * Result A := λ b,
  match m b with
  | (b1, t1, inr a) => (b1, t1, Success a)
  | (b1, t1, inl e) => (b1, t1 ++ [EvConsole label e], Failure (message e))
  end.

Section Methods.
Context {B : Type} `{auth : SupabaseAuth B}.

Definition call_signUp (email password full_name : string) : AM B (Response User) := λ b,
  let '(b', r) := auth_signUp email password full_name b in
  (b', [EvSignUp email password full_name], inr r).

Definition call_signIn (email password : string) : AM B (Response User) := λ b,
  let '(b', r) := auth_signInWithPassword email password b in
  (b', [EvSignIn email password], inr r).

Definition call_signOut : AM B (option Err) := λ b,
  let '(b', r) := auth_signOut b in (b', [EvSignOut], inr r).

Definition call_insert_rows (table : string) (rows : list obj) : AM B (option Err) := λ b,
  let '(b', r) := db_insert_rows table rows b in (b', [EvInsertRows table rows], inr r).

(** The row [register] writes to [profiles]. *)
Definition profile_record (id email full_name created_at : string) : obj :=
  <["id" := VStr id]>
  (<["email" := VStr email]>
  (<["full_name" := VStr full_name]>
  (<["created_at" := VStr created_at]> ∅))).

(** *** AuthManager.register *)
Definition register_try (amb : Ambient) (userData : UserData) : AM B (option User) :=
  authData ← call_signUp (email userData) (password userData) (name userData);
  match error authData with
  | Some authError => raise authError
  | None =>
      match data authData with
      | Some user =>
          profileError ← call_insert_rows "profiles"
            [profile_record (user_id user) (email userData) (name userData)
               (toISOString amb)];
          match profileError with
          | Some profileError => log "Profile creation error:" profileError
          | None => mret tt
          end
      | None => mret tt
      end;;
      mret (data authData)
  end.

Definition register (amb : Ambient) (userData : UserData)
    : B → B * list AuthEvent * Result (option User) :=
  guarded "Registration error:" (register_try amb userData).

(** *** AuthManager.login *)
Definition login_try (email password : string) : AM B (option User) :=
  r ← call_signIn email password;
  match error r with
  | Some e => raise e
  | None => mret (data r)
  end.

Definition login (email password : string) : B → B * list AuthEvent * Result (option User) :=
  guarded "Login error:" (login_try email password).

(** *** AuthManager.logout *)
Definition logout_try : AM B unit :=
  error ← call_signOut;
  match error with
  | Some e => raise e
  | None => mret tt
  end.

Definition logout : B → B * list AuthEvent * Result unit :=
  guarded "Logout error:" logout_try.

End Methods.

(** An in-memory auth service: accounts are (email, password, user) triples;
    signing up a known email is refused, signing in needs the password. *)
Record Accounts := {
  acc_users : list (string * string * User);
  acc_profiles : list obj;
  acc_profiles_down : bool;
  acc_session : option User
}.

Definition lookup_account (email : string) (a : Accounts) : option (string * User) :=
  (λ x, (x.1.2, x.2)) <$> find (λ x, String.eqb x.1.1 email) (acc_users a).

Definition signUp (email password full_name : string) (a : Accounts)
    : Accounts * Response User :=
  match lookup_account email a with
  | Some _ => (a, {| data := None; error := Some (Error "User already registered") |})
  | None =>
      let user := {| user_id := ("id-" ++ email)%string |} in
      ({| acc_users := (email, password, user) :: acc_users a;
          acc_profiles := acc_profiles a;
          acc_profiles_down := acc_profiles_down a;
          acc_session := Some user |},
       {| data := Some user; error := None |})
  end.

Definition signIn (email password : string) (a : Accounts) : Accounts * Response User :=
  match lookup_account email a with
  | Some (pw, user) =>
      if String.eqb pw password
      then ({| acc_users := acc_users a; acc_profiles := acc_profiles a;
               acc_profiles_down := acc_profiles_down a; acc_session := Some user |},
            {| data := Some user; error := None |})
      else (a, {| data := None; error := Some (Error "Invalid login credentials") |})
  | None => (a, {| data := None; error := Some (Error "Invalid login credentials") |})
  end.

Definition insert_rows (table : string) (rows : list obj) (a : Accounts)
    : Accounts * option Err :=
  if acc_profiles_down a then (a, Some (Error "profiles unavailable"))
  else ({| acc_users := acc_users a; acc_profiles := rows ++ acc_profiles a;
           acc_profiles_down := acc_profiles_down a; acc_session := acc_session a |}, None).

#[global] Instance accounts_auth : SupabaseAuth Accounts := {|
  auth_signUp := signUp;
  auth_signInWithPassword := signIn;
  auth_signOut a :=
    ({| acc_users := acc_users a; acc_profiles := acc_profiles a;
        acc_profiles_down := acc_profiles_down a; acc_session := None |}, None);
  db_insert_rows := insert_rows
|}.

Definition nobody : Accounts :=
  {| acc_users := []; acc_profiles := []; acc_profiles_down := false; acc_session := None |}.
Definition nobody_profiles_down : Accounts :=
  {| acc_users := []; acc_profiles := []; acc_profiles_down := true; acc_session := None |}.
Definition bob_form : UserData :=
  {| email := "bob@example.org"; password := "hunter22"; name := "Bob" |}.
Definition with_bob : Accounts :=
  {| acc_users := [("bob@example.org", "hunter22", {| user_id := "id-bob@example.org" |})];
     acc_profiles := []; acc_profiles_down := false; acc_session := None |}.

End Auth.

(** ** A client without network

    Every call is answered with the error a failed fetch gives. *)
Module OfflineClient.

Definition down {A} : Response A :=
  {| data := None; error := Some (Error "Failed to fetch") |}.

#[global] Instance client : SupabaseClient unit := {|
  auth_getUser b := (b, down);
  storage_upload bucket key file cacheControl upsert b := (b, [], down);
  storage_getPublicUrl bucket key b := EmptyString;
  db_insert table rows b := (b, down);
  db_select_order table columns column ascending b := (b, down);
  db_select_in table columns column vs b := (b, down);
  db_select_single table columns column v b := (b, down)
|}.

End OfflineClient.

(** Further backends: nobody signed in, the key of [clip] already taken,
    two rows under one id. *)
Module MoreScenarios.
Import MemClient.

Definition signed_out : Mem :=
  {| mem_user := None; mem_blobs := []; mem_videos := []; mem_profiles := [];
     mem_insert_down := false; mem_profiles_down := false |}.

Definition key_taken : Mem :=
  {| mem_user := Some alice; mem_blobs := ["videos/u1/1700000000000-82mvyr.mp4"];
     mem_videos := []; mem_profiles := [];
     mem_insert_down := false; mem_profiles_down := false |}.

Definition twins : Mem :=
  {| mem_user := Some alice; mem_blobs := [];
     mem_videos := [Scenarios.row 7 "take two" "u1"; Scenarios.row 7 "take one" "u1"];
     mem_profiles := [];
     mem_insert_down := false; mem_profiles_down := false |}.

(** The rows an in-memory query selects. *)
Definition selected (m : Mem) (table column : string) (v : value) : list obj :=
  filter (λ r, Is_true (strict_eq (r !! column) (Some v))) (mem_videos m).

End MoreScenarios.

(** ** A profile table in memory

    The state is the rows of [profiles]; [single()] answers as documented,
    with the row when exactly one is selected and an error otherwise.  The
    other calls find no network. *)
Module ProfileStore.

(** The rows a query selects. *)
Definition selected (rows : list obj) (table column : string) (v : value) : list obj :=
  filter (λ r, Is_true (strict_eq (r !! column) (Some v))) rows.

Definition select_single (table columns column : string) (v : value)
    (rows : list obj) : list obj * Response obj :=
  match selected rows table column v with
  | [r] => (rows, MemClient.ok r)
  | _ => (rows, MemClient.failed "JSON object requested, multiple (or no) rows returned")
  end.

#[global] Instance client : SupabaseClient (list obj) := {|
  auth_getUser rows := (rows, OfflineClient.down);
  storage_upload bucket key file cacheControl upsert rows := (rows, [], OfflineClient.down);
  storage_getPublicUrl bucket key rows := EmptyString;
  db_insert table rows' rows := (rows, OfflineClient.down);
  db_select_order table columns column ascending rows := (rows, OfflineClient.down);
  db_select_in table columns column vs rows := (rows, OfflineClient.down);
  db_select_single := select_single
|}.

End ProfileStore.

(** ** Reading strings *)

(** Whether [c] occurs in [s]. *)
Fixpoint has_char (c : ascii) (s : string) : bool :=
  match s with
  | EmptyString => false
  | String a s' => Ascii.eqb a c || has_char c s'
  end.

(** [l.join(c)] for a one-character separator *)
Fixpoint join (c : ascii) (l : list string) : string :=
  match l with
  | [] => EmptyString
  | [x] => x
  | x :: l' => x ++ String c (join c l')
  end.

(** The events an upload forwards to [onProgress]. *)
Definition forwarded (onProgress : bool) (pr : Progress) : list Event :=
  if onProgress then (λ p, EvOnProgress p.1 p.2) <$> pr else [].

(** * Properties *)

(** ** Running the monad *)

Lemma bind_run {B A C} (m : M B A) (k : A → M B C) (b : B) :
  (m ≫= k) b =
    match m b with
    | (b1, t1, inl e) => (b1, t1, inl e)
    | (b1, t1, inr a) => let '(b2, t2, r) := k a b1 in (b2, t1 ++ t2, r)
    end.
Proof. unfold mbind, M_bind, bind. by destruct (m b) as [[? ?] [?|?]]. Qed.

Lemma bind_run_ok {B A C} (m : M B A) (k : A → M B C) b b1 t1 a :
  m b = (b1, t1, inr a) →
  (m ≫= k) b = let '(b2, t2, r) := k a b1 in (b2, t1 ++ t2, r).
Proof. intros H. by rewrite bind_run, H. Qed.

(** Run the next statement of a method body. *)
Ltac run :=
  repeat first
    [ rewrite bind_run
    | progress cbn [throw ret mret M_ret throw_if emit negb fst snd] ].

(** Decide whether an event occurs in a trace spelled out with [++] and [::]. *)
Ltac in_trace :=
  repeat first [rewrite elem_of_app | rewrite elem_of_cons | rewrite elem_of_nil];
  naive_solver.

Lemma includes_elem_of (l : list string) (s : string) :
  includes l s = true ↔ s ∈ l.
Proof.
  unfold includes. rewrite existsb_exists. split.
  - intros (x & Hin & Heq). apply String.eqb_eq in Heq. subst x.
    by apply list_elem_of_In.
  - intros Hin. exists s. split; [by apply list_elem_of_In | apply String.eqb_refl].
Qed.

Lemma find_Some {A} (p : A → bool) (l : list A) (x : A) :
  find p l = Some x → x ∈ l ∧ p x = true.
Proof.
  induction l as [|y l IH]; cbn; [done |].
  destruct (p y) eqn:Hy.
  - intros [= ->]. split; [left | done].
  - intros H. destruct (IH H). split; [by right | done].
Qed.

Lemma find_None {A} (p : A → bool) (l : list A) :
  find p l = None → ∀ x, x ∈ l → p x = false.
Proof.
  induction l as [|y l IH]; cbn; intros H x Hx.
  - by apply elem_of_nil in Hx.
  - destruct (p y) eqn:Hy; [done |].
    apply elem_of_cons in Hx as [-> | Hx]; [done | by apply IH].
Qed.

(** [===] only holds between equal values. *)
Lemma strict_eq_true (a b : option value) : strict_eq a b = true → a = b.
Proof.
  destruct a as [[]|], b as [[]|]; cbn; try done.
  - intros H. apply Bool.eqb_prop in H. by subst.
  - intros H. apply Z.eqb_eq in H. by subst.
  - intros H. apply String.eqb_eq in H. by subst.
Qed.

Lemma includes_not_elem_of (l : list string) (s : string) :
  includes l s = false ↔ s ∉ l.
Proof.
  rewrite <- includes_elem_of. destruct (includes l s); split; congruence.
Qed.

Lemma quiet_app t1 t2 : quiet t1 → quiet t2 → quiet (t1 ++ t2).
Proof. unfold quiet. intros. by apply Forall_app. Qed.

Section ManagerFacts.
Context {B : Type} `{client : SupabaseClient B}.

(** [getCurrentUser] never throws, and only talks to the auth service. *)
Lemma getCurrentUser_run (b : B) :
  getCurrentUser b =
    match error (auth_getUser b).2 with
    | Some e => ((auth_getUser b).1,
                 [EvAuthGetUser; EvConsoleError "Get user error:" e], inr None)
    | None => ((auth_getUser b).1, [EvAuthGetUser], inr (data (auth_getUser b).2))
    end.
Proof.
  unfold getCurrentUser, try_catch. rewrite bind_run. unfold call_getUser.
  destruct (auth_getUser b) as [b' r]. cbn. by destruct (error r).
Qed.

Lemma getCurrentUser_quiet (b b1 : B) t r :
  getCurrentUser b = (b1, t, r) → quiet t ∧ ∃ u, r = inr u.
Proof.
  rewrite getCurrentUser_run. destruct (error _); intros [= <- <- <-];
    (split; [repeat constructor | eauto]).
Qed.

(** What the body logs stays in the log of the guarded method. *)
Lemma guarded_trace {A} (label : string) (m : M B A) (b : B) :
  (m b).1.2 `prefix_of` (guarded label m b).1.2.
Proof.
  unfold guarded. destruct (m b) as [[b1 t1] [e|a]]; cbn; [by apply prefix_app_r | done].
Qed.

Lemma video_record_duration title description file storage_path video_url uploaded_by created_at :
  video_record title description file storage_path video_url uploaded_by created_at
    !! "duration" = Some (VNum 0).
Proof. unfold video_record. by simplify_map_eq. Qed.

(** C3.  An upload by a resolved user whose file type is not one of the
    four allowed MIME types fails with the "only video files" message, and
    nothing in its trace reaches the storage client or the database: the
    backend is left as [getCurrentUser] left it. *)
Theorem upload_rejects_foreign_type (amb : Ambient) (file : File)
    (title description : string) (onProgress : bool) (b b1 : B) t u :
  getCurrentUser b = (b1, t, inr (Some u)) →
  file_type file ∉ validTypes →
  uploadVideo amb file title description onProgress b =
    (b1, t ++ [EvConsoleError "Upload error:" (Error msg_invalid_type)],
     Failure msg_invalid_type)
  ∧ quiet (t ++ [EvConsoleError "Upload error:" (Error msg_invalid_type)]).
Proof.
  intros Hu Hty. apply includes_not_elem_of in Hty.
  split.
  - unfold uploadVideo, guarded, uploadVideo_try.
    rewrite (bind_run_ok _ _ _ _ _ _ Hu), Hty. run. by rewrite app_nil_r.
  - apply quiet_app; [by apply (getCurrentUser_quiet _ _ _ _ Hu) | repeat constructor].
Qed.

(** The body of [uploadVideo] once the caller is known and the file has
    passed both checks. *)
Lemma uploadVideo_try_accepted (amb : Ambient) (file : File)
    (title description : string) (onProgress : bool) (b b1 : B) t u :
  getCurrentUser b = (b1, t, inr (Some u)) →
  file_type file ∈ validTypes →
  file_size file ≤ max_size →
  ∃ rest,
    (uploadVideo_try amb file title description onProgress b).1.2 =
      t ++ EvStorageUpload "videos"
             (storage_key (user_id u) (Date_now amb) (random_toString36 amb)
                (fileExt_of file))
             file "3600" false :: rest.
Proof.
  intros Hu Hty Hsz. apply includes_elem_of in Hty.
  apply Z.ltb_ge in Hsz.
  unfold uploadVideo_try. rewrite (bind_run_ok _ _ _ _ _ _ Hu), Hty. run. rewrite Hsz. run.
  unfold call_upload at 1.
  destruct (storage_upload _ _ _ _ _ _) as [[b2 pr] up].
  match goal with |- context [?rest b2] => destruct (rest b2) as [[b3 t3] r3] end.
  cbn. eexists. reflexivity.
Qed.

(** C4.  For a resolved user and an allowed type, the upload fails at the
    size check exactly when the file is larger than 50 * 1024 * 1024 bytes.
    On that failure the trace is quiet; a file of the limit's size or
    smaller passes, and the blob write is issued. *)
Theorem upload_size_gate (amb : Ambient) (file : File)
    (title description : string) (onProgress : bool) (b b1 : B) t u :
  getCurrentUser b = (b1, t, inr (Some u)) →
  file_type file ∈ validTypes →
  let out := uploadVideo amb file title description onProgress b in
  max_size = 52428800
  ∧ (max_size < file_size file ↔ out.2 = Failure msg_too_large ∧ quiet out.1.2)
  ∧ (max_size < file_size file →
       out = (b1, t ++ [EvConsoleError "Upload error:" (Error msg_too_large)],
              Failure msg_too_large))
  ∧ (file_size file ≤ max_size →
       EvStorageUpload "videos"
         (storage_key (user_id u) (Date_now amb) (random_toString36 amb)
            (fileExt_of file))
         file "3600" false ∈ out.1.2).
Proof.
  intros Hu Hty out.
  assert (Hbig : max_size < file_size file →
            out = (b1, t ++ [EvConsoleError "Upload error:" (Error msg_too_large)],
                   Failure msg_too_large)).
  { intros Hsz. apply Z.ltb_lt in Hsz. apply includes_elem_of in Hty.
    unfold out, uploadVideo, guarded, uploadVideo_try.
    rewrite (bind_run_ok _ _ _ _ _ _ Hu), Hty. run. rewrite Hsz. run.
    by rewrite !app_nil_r. }
  assert (Hsmall : file_size file ≤ max_size →
            EvStorageUpload "videos"
              (storage_key (user_id u) (Date_now amb) (random_toString36 amb)
                 (fileExt_of file))
              file "3600" false ∈ out.1.2).
  { intros Hsz.
    destruct (uploadVideo_try_accepted amb file title description onProgress
                b b1 t u Hu Hty Hsz) as [rest Hrest].
    destruct (guarded_trace "Upload error:"
                (uploadVideo_try amb file title description onProgress) b) as [more Hmore].
    unfold out, uploadVideo. rewrite Hmore, Hrest.
    rewrite !elem_of_app, elem_of_cons. auto. }
  split; [reflexivity |]. split; [| by split].
  split.
  - intros Hsz. rewrite (Hbig Hsz). cbn. split; [done |].
    apply quiet_app; [by apply (getCurrentUser_quiet _ _ _ _ Hu) | repeat constructor].
  - intros [_ Hq]. destruct (Z.lt_ge_cases max_size (file_size file)) as [|Hle]; [done |].
    specialize (Hsmall Hle). unfold quiet in Hq. rewrite Forall_forall in Hq.
    destruct (Hq _ Hsmall) as [Hst _]. discriminate Hst.
Qed.

(** C7.  When the blob write succeeds and the insert of the metadata
    record fails, the upload returns failure with the insert error's
    message.  The calls made are the upload, the locator lookup and the
    insert, nothing after: the backend is the one the insert left, so a key
    stored by the upload is still stored, for any notion of "stored" that
    inserts into the database do not disturb. *)
Theorem upload_metadata_failure_keeps_blob (amb : Ambient) (file : File)
    (title description : string) (onProgress : bool)
    (b b1 b2 b3 : B) t u pr d ins dbError :
  getCurrentUser b = (b1, t, inr (Some u)) →
  file_type file ∈ validTypes →
  file_size file ≤ max_size →
  let key := storage_key (user_id u) (Date_now amb) (random_toString36 amb)
               (fileExt_of file) in
  storage_upload "videos" key file "3600" false b1 =
    (b2, pr, {| data := Some d; error := None |}) →
  let record := video_record title description file (path d)
                  (storage_getPublicUrl "videos" (path d) b2)
                  (user_id u) (toISOString amb) in
  db_insert "videos" [record] b2 = (b3, ins) →
  error ins = Some dbError →
  uploadVideo amb file title description onProgress b =
    (b3,
     t ++ EvStorageUpload "videos" key file "3600" false
       :: (if onProgress then (λ p, EvOnProgress p.1 p.2) <$> pr else [])
       ++ [EvGetPublicUrl "videos" (path d); EvInsert "videos" [record];
           EvConsoleError "Upload error:" dbError],
     Failure (message dbError))
  ∧ ∀ stored : B → string → Prop,
      stored b2 (path d) →
      (∀ s table rows k, stored s k → stored (db_insert table rows s).1 k) →
      stored b3 (path d).
Proof.
  intros Hu Hty Hsz key Hup record Hins Herr. split.
  - apply includes_elem_of in Hty. apply Z.ltb_ge in Hsz.
    unfold uploadVideo, guarded, uploadVideo_try.
    rewrite (bind_run_ok _ _ _ _ _ _ Hu), Hty. run. rewrite Hsz. run.
    unfold call_upload at 1. fold key. rewrite Hup. cbn [error data]. run.
    unfold call_getPublicUrl at 1. run.
    unfold call_insert at 1. fold record. rewrite Hins, Herr. cbn.
    do 2 f_equal. rewrite <- app_assoc. cbn [app]. do 2 f_equal.
    by rewrite <- app_assoc.
  - intros stored Hst Hframe.
    specialize (Hframe b2 "videos" [record] (path d) Hst).
    by rewrite Hins in Hframe.
Qed.

(** C9.  Whatever the inputs and whatever the backend answers, every
    insert an upload issues carries one record whose [duration] is 0, and
    a successful upload has issued such an insert into [videos]. *)
Theorem upload_inserts_zero_duration (amb : Ambient) (file : File)
    (title description : string) (onProgress : bool) (b b' : B) tr r :
  uploadVideo amb file title description onProgress b = (b', tr, r) →
  (∀ table rows, EvInsert table rows ∈ tr →
     table = "videos" ∧ ∃ row, rows = [row] ∧ row !! "duration" = Some (VNum 0))
  ∧ (∀ url, r = Success url →
     ∃ row, EvInsert "videos" [row] ∈ tr ∧ row !! "duration" = Some (VNum 0)).
Proof.
  unfold uploadVideo, guarded, uploadVideo_try.
  rewrite bind_run, getCurrentUser_run.
  destruct (auth_getUser b) as [b1 au]. cbn [fst snd].
  destruct (error au) as [e|]; [| destruct (data au) as [u|]]; run.
  1,3: intros [= <- <- <-]; split;
    [ intros table rows; in_trace | intros url [=] ].
  destruct (includes validTypes (file_type file)); run.
  2: intros [= <- <- <-]; split;
    [ intros table rows; in_trace | intros url [=] ].
  destruct (max_size <? file_size file); run.
  1: intros [= <- <- <-]; split;
    [ intros table rows; in_trace | intros url [=] ].
  unfold call_upload at 1.
  destruct (storage_upload _ _ _ _ _ _) as [[b2 pr] up].
  assert (Hpr : ∀ table rows,
            EvInsert table rows ∉
              (if onProgress then (λ p, EvOnProgress p.1 p.2) <$> pr else [])).
  { intros table rows. destruct onProgress; [| apply not_elem_of_nil].
    rewrite list_elem_of_fmap. by intros (p & [=] & _). }
  destruct (error up) as [e|]; [| destruct (data up) as [d|]]; run.
  1,3: intros [= <- <- <-]; split;
    [ intros table rows; in_trace | intros url [=] ].
  unfold call_getPublicUrl at 1. run. unfold call_insert at 1.
  destruct (db_insert _ _ _) as [b3 ins].
  pose proof (video_record_duration title description file (path d)
                (storage_getPublicUrl "videos" (path d) b2) (user_id u)
                (toISOString amb)) as Hdur.
  destruct (error ins) as [dbError|]; run; intros [= <- <- <-]; split.
  - intros table rows. in_trace.
  - intros url [=].
  - intros table rows. in_trace.
  - intros url _. eexists. split; [| exact Hdur]. in_trace.
Qed.

(** *** Listing *)

(** The listing once the catalogue query has answered with rows. *)
Lemma getAllVideos_run (b b1 b2 : B) vr video videos pr :
  db_select_order "videos" "*" "created_at" false b = (b1, vr) →
  error vr = None →
  data vr = Some (video :: videos) →
  db_select_in "profiles" "id, full_name, email" "id"
    (userIds_of (video :: videos)) b1 = (b2, pr) →
  getAllVideos b =
    let queries :=
      [EvSelectOrder "videos" "*" "created_at" false;
       EvSelectIn "profiles" "id, full_name, email" "id"
         (userIds_of (video :: videos))] in
    match error pr, data pr with
    | Some profilesError, _ =>
        (b2, queries ++ [EvConsoleError "Profiles fetch error:" profilesError],
         Success (without_profile <$> video :: videos))
    | None, Some profiles =>
        (b2, queries, Success (with_profile profiles <$> video :: videos))
    | None, None =>
        (b2, queries ++ [EvConsoleError "Get videos error:" (TypeError_null "find")],
         Failure (message (TypeError_null "find")))
    end.
Proof.
  intros Hv Hverr Hvdata Hp.
  unfold getAllVideos, guarded, getAllVideos_try. run.
  unfold call_select_order at 1. rewrite Hv, Hverr, Hvdata. run.
  unfold call_select_in at 1. rewrite Hp.
  destruct (error pr) as [e|]; [| destruct (data pr) as [profiles|]]; by run.
Qed.

(** C1.  When the catalogue query returns rows and the profile query
    answers with an error, the listing still succeeds and returns the
    fetched records, in their order, each paired with the placeholder
    profile ("Unknown User", "unknown@email.com"): the record at each
    index is the fetched one with [profiles] set to the placeholder, every
    other field as fetched.  The profile error goes to [console.error] and
    nowhere else. *)
Theorem listing_survives_profile_outage (b b1 b2 : B) vr video videos pr profilesError :
  db_select_order "videos" "*" "created_at" false b = (b1, vr) →
  error vr = None →
  data vr = Some (video :: videos) →
  db_select_in "profiles" "id, full_name, email" "id"
    (userIds_of (video :: videos)) b1 = (b2, pr) →
  error pr = Some profilesError →
  ∃ out,
    getAllVideos b =
      (b2,
       [EvSelectOrder "videos" "*" "created_at" false;
        EvSelectIn "profiles" "id, full_name, email" "id"
          (userIds_of (video :: videos));
        EvConsoleError "Profiles fetch error:" profilesError],
       Success out)
    ∧ length out = length (video :: videos)
    ∧ (∀ i v, (video :: videos) !! i = Some v →
         ∃ r, out !! i = Some r
           ∧ r = <["profiles" := VObj placeholder]> v
           ∧ r !! "profiles" = Some (VObj placeholder)
           ∧ (∀ k, k ≠ "profiles" → r !! k = v !! k)
           ∧ (v !! "profiles" = None → v ⊆ r ∧ delete "profiles" r = v))
    ∧ (∀ r, r ∈ out → r !! "profiles" = Some (VObj placeholder))
    ∧ placeholder !! "full_name" = Some (VStr "Unknown User")
    ∧ placeholder !! "email" = Some (VStr "unknown@email.com").
Proof.
  intros Hv Hverr Hvdata Hp Hperr.
  exists (without_profile <$> video :: videos). split; [| split; [| split; [| split]]].
  - rewrite (getAllVideos_run _ _ _ _ _ _ _ Hv Hverr Hvdata Hp), Hperr. done.
  - by rewrite length_fmap.
  - intros i v Hi. exists (without_profile v). split; [by rewrite list_lookup_fmap, Hi |].
    unfold without_profile, spread_with. split; [done |].
    split; [apply lookup_insert_eq |]. split.
    + intros k Hk. by apply lookup_insert_ne.
    + intros Hfresh. split; [by apply insert_subseteq | by apply delete_insert_id].
  - intros r Hr. apply list_elem_of_fmap in Hr as (v & -> & _).
    unfold without_profile, spread_with. apply lookup_insert_eq.
  - done.
Qed.

(** C5.  When both queries succeed, every record is returned with, under
    [profiles], a fetched profile whose [id] is the record's [uploaded_by],
    as fetched, or with the placeholder when no fetched profile has that
    id. *)
Theorem listing_joins_profiles (b b1 b2 : B) vr video videos pr profiles :
  db_select_order "videos" "*" "created_at" false b = (b1, vr) →
  error vr = None →
  data vr = Some (video :: videos) →
  db_select_in "profiles" "id, full_name, email" "id"
    (userIds_of (video :: videos)) b1 = (b2, pr) →
  error pr = None →
  data pr = Some profiles →
  ∃ out,
    getAllVideos b =
      (b2,
       [EvSelectOrder "videos" "*" "created_at" false;
        EvSelectIn "profiles" "id, full_name, email" "id"
          (userIds_of (video :: videos))],
       Success out)
    ∧ length out = length (video :: videos)
    ∧ ∀ i v, (video :: videos) !! i = Some v →
        ∃ r, out !! i = Some r ∧
          ((∃ p, p ∈ profiles
                 ∧ p !! "id" = v !! "uploaded_by"
                 ∧ strict_eq (p !! "id") (v !! "uploaded_by") = true
                 ∧ r !! "profiles" = Some (VObj p))
           ∨ ((∀ p, p ∈ profiles →
                    strict_eq (p !! "id") (v !! "uploaded_by") = false)
              ∧ r !! "profiles" = Some (VObj placeholder))).
Proof.
  intros Hv Hverr Hvdata Hp Hperr Hpdata.
  exists (with_profile profiles <$> video :: videos). split; [| split].
  - rewrite (getAllVideos_run _ _ _ _ _ _ _ Hv Hverr Hvdata Hp), Hperr, Hpdata. done.
  - by rewrite length_fmap.
  - intros i v Hi. exists (with_profile profiles v). split.
    { by rewrite list_lookup_fmap, Hi. }
    unfold with_profile, spread_with. rewrite lookup_insert_eq.
    destruct (find_profile profiles v) as [p|] eqn:Hfind; cbn.
    + left. exists p. apply find_Some in Hfind as [Hin Heq].
      split; [done |]. split; [by apply strict_eq_true |]. done.
    + right. split; [| done]. intros p Hin.
      by apply (find_None _ _ Hfind).
Qed.

(** Attaching a profile leaves every other field alone, and a record
    that had no [profiles] field is recovered by dropping the new one. *)
Lemma spread_with_frame (o : obj) (k : string) (v : value) :
  spread_with o k v !! k = Some v
  ∧ (∀ k', k' ≠ k → spread_with o k v !! k' = o !! k')
  ∧ (o !! k = None → o ⊆ spread_with o k v ∧ delete k (spread_with o k v) = o).
Proof.
  unfold spread_with. split; [apply lookup_insert_eq |]. split.
  - intros k' Hk. by apply lookup_insert_ne.
  - intros Hnone. split; [by apply insert_subseteq | by apply delete_insert_id].
Qed.

(** C10.  When the catalogue query succeeds, the listing returns the
    fetched records in their order, as many as were fetched.  Each returned
    record has a [profiles] field and agrees with the fetched one on every
    other field; a fetched record without a [profiles] column, which is what
    [uploadVideo] writes, is contained in the returned one and is what is
    left of it once [profiles] is dropped. *)
Theorem listing_preserves_records (b b1 b2 : B) vr pr :
  db_select_order "videos" "*" "created_at" false b = (b1, vr) →
  error vr = None →
  let fetched := default [] (data vr) in
  db_select_in "profiles" "id, full_name, email" "id" (userIds_of fetched) b1 = (b2, pr) →
  is_Some (error pr) ∨ is_Some (data pr) →
  ∃ out,
    (getAllVideos b).2 = Success out
    ∧ length out = length fetched
    ∧ ∀ i v, fetched !! i = Some v →
        ∃ r, out !! i = Some r
          ∧ is_Some (r !! "profiles")
          ∧ (∀ k, k ≠ "profiles" → r !! k = v !! k)
          ∧ (v !! "profiles" = None → v ⊆ r ∧ delete "profiles" r = v).
Proof.
  intros Hv Hverr fetched Hp Hwf.
  destruct (data vr) as [[|video videos]|] eqn:Hvdata.
  1,3: exists []; split; [| split; [done | intros i v Hi; by destruct i]];
    unfold getAllVideos, guarded, getAllVideos_try; run;
    unfold call_select_order at 1; by rewrite Hv, Hverr, Hvdata.
  cbn in fetched. subst fetched.
  rewrite (getAllVideos_run _ _ _ _ _ _ _ Hv Hverr Hvdata Hp).
  assert (Hrows : ∀ f : obj → obj,
            (∀ v, ∃ p, f v = spread_with v "profiles" p) →
            length (f <$> video :: videos) = length (video :: videos)
            ∧ ∀ i v, (video :: videos) !! i = Some v →
                ∃ r, (f <$> video :: videos) !! i = Some r
                  ∧ is_Some (r !! "profiles")
                  ∧ (∀ k, k ≠ "profiles" → r !! k = v !! k)
                  ∧ (v !! "profiles" = None → v ⊆ r ∧ delete "profiles" r = v)).
  { intros f Hf. split; [by rewrite length_fmap |].
    intros i v Hi. exists (f v). split; [by rewrite list_lookup_fmap, Hi |].
    destruct (Hf v) as [p ->].
    destruct (spread_with_frame v "profiles" p) as (Hk & Hother & Hfresh).
    split; [by rewrite Hk |]. by split. }
  destruct (error pr) as [e|]; [| destruct (data pr) as [profiles|]]; cbn.
  - exists (without_profile <$> video :: videos). split; [done |].
    apply Hrows. intros v. by eexists.
  - exists (with_profile profiles <$> video :: videos). split; [done |].
    apply Hrows. intros v. by eexists.
  - destruct Hwf as [[? [=]] | [? [=]]].
Qed.

(** *** Detail view *)

Lemma getVideoById_error (videoId : value) (b b1 : B) r e :
  db_select_single "videos" detail_columns "id" videoId b = (b1, r) →
  error r = Some e →
  getVideoById videoId b =
    (b1,
     [EvSelectSingle "videos" detail_columns "id" videoId;
      EvConsoleError "Get video error:" e],
     Failure (message e)).
Proof.
  intros Hq He. unfold getVideoById, guarded, getVideoById_try. run.
  unfold call_select_single at 1. rewrite Hq, He. by run.
Qed.

(** C6.  With a client whose [single()] keeps its promise, the detail view
    of an id that no record matches is a failure carrying the client's
    error message, logged once; it is never a success, with or without a
    payload. *)
Theorem detail_of_missing_id_fails
    (matching : B → string → string → value → list obj) (videoId : value) (b : B) :
  single_contract matching →
  matching b "videos" "id" videoId = [] →
  ∃ e,
    getVideoById videoId b =
      ((db_select_single "videos" detail_columns "id" videoId b).1,
       [EvSelectSingle "videos" detail_columns "id" videoId;
        EvConsoleError "Get video error:" e],
       Failure (message e))
    ∧ ∀ payload, (getVideoById videoId b).2 ≠ Success payload.
Proof.
  intros Hsingle Hnone.
  specialize (Hsingle "videos" detail_columns "id" videoId b).
  rewrite Hnone in Hsingle. destruct Hsingle as [e He].
  destruct (db_select_single "videos" detail_columns "id" videoId b) as [b1 r] eqn:Hq.
  exists e. rewrite (getVideoById_error _ _ _ _ _ Hq He). by split.
Qed.

End ManagerFacts.

(** ** Storage keys *)

Lemma list_ascii_of_string_app (s t : string) :
  String.list_ascii_of_string (s ++ t) = String.list_ascii_of_string s ++ String.list_ascii_of_string t.
Proof. induction s as [|a s IH]; simpl; [done | by f_equal]. Qed.

Lemma list_ascii_of_string_inj (s t : string) :
  String.list_ascii_of_string s = String.list_ascii_of_string t → s = t.
Proof.
  intros H. rewrite <- (String.string_of_list_ascii_of_string s),
    <- (String.string_of_list_ascii_of_string t). by rewrite H.
Qed.

(** C8, as stated, fails.  [Math.random()] returning 0.5 and then 0.25
    prints as "0.i" and "0.9", and [substring(7)] keeps nothing of either:
    two uploads by one user in one millisecond ask the store for the same
    key.  The second is refused, the write being made with [upsert: false]. *)
Lemma storage_key_collision :
  Date_now Scenarios.draw_half = Date_now Scenarios.draw_quarter
  ∧ random_toString36 Scenarios.draw_half ≠ random_toString36 Scenarios.draw_quarter
  ∧ storage_key "u1" (Date_now Scenarios.draw_half)
      (random_toString36 Scenarios.draw_half) (fileExt_of MemClient.clip)
    = storage_key "u1" (Date_now Scenarios.draw_quarter)
        (random_toString36 Scenarios.draw_quarter) (fileExt_of MemClient.clip)
  ∧ let first :=
      uploadVideo Scenarios.draw_half MemClient.clip "title" "text" false MemClient.empty in
    let second :=
      uploadVideo Scenarios.draw_quarter MemClient.clip "title" "text" false first.1.1 in
    EvStorageUpload "videos" "videos/u1/1700000000000-.mp4" MemClient.clip "3600" false
      ∈ first.1.2
    ∧ EvStorageUpload "videos" "videos/u1/1700000000000-.mp4" MemClient.clip "3600" false
      ∈ second.1.2
    ∧ second.2 = Failure "The resource already exists".
Proof.
  split; [reflexivity |]. split; [discriminate |]. split; [reflexivity |].
  cbv zeta. split; [| split].
  - by apply (list_elem_of_lookup_2 _ 1%nat).
  - by apply (list_elem_of_lookup_2 _ 1%nat).
  - vm_compute. reflexivity.
Qed.

(** ** File sizes *)

Lemma floor_log_unit (bytes : Z) :
  0 < bytes < 1024 ^ 4 → floor_log 1024 bytes = Z.of_nat (spec_unit bytes).
Proof.
  intros [Hpos Hlt]. unfold floor_log, spec_unit.
  change (Z.log2 1024) with 10.
  pose proof (Z.log2_nonneg bytes) as H0.
  assert (Hup : ∀ j, 0 ≤ j → bytes < 2 ^ j → Z.log2 bytes < j).
  { intros j Hj Hb. by apply Z.log2_lt_pow2. }
  assert (Hlo : ∀ j, 0 ≤ j → 2 ^ j ≤ bytes → j ≤ Z.log2 bytes).
  { intros j Hj Hb. by apply Z.log2_le_pow2. }
  pose proof (Hup 40) as H40. pose proof (Hup 30) as Hu30. pose proof (Hup 20) as Hu20.
  pose proof (Hup 10) as Hu10. pose proof (Hlo 30) as Hl30. pose proof (Hlo 20) as Hl20.
  pose proof (Hlo 10) as Hl10. clear Hup Hlo.
  change (2 ^ 40) with 1099511627776 in *. change (1024 ^ 4) with 1099511627776 in *.
  change (2 ^ 30) with 1073741824 in *. change (1024 ^ 3) with 1073741824 in *.
  change (2 ^ 20) with 1048576 in *. change (1024 ^ 2) with 1048576 in *.
  change (2 ^ 10) with 1024 in *.
  repeat case_match; rewrite ?Z.leb_le, ?Z.leb_gt in *; simpl Z.of_nat;
    generalize dependent (Z.log2 bytes); intros;
    Z.div_mod_to_equations; lia.
Qed.

(** Below one tebibyte the formatter does what the specification says. *)
Lemma formatFileSize_refines_spec (bytes : Z) :
  0 ≤ bytes < 1024 ^ 4 → formatFileSize bytes = formatSize_spec bytes.
Proof.
  intros [Hpos Hlt]. unfold formatFileSize, formatSize_spec.
  destruct (bytes =? 0) eqn:Hz; [done |]. apply Z.eqb_neq in Hz.
  cbv zeta. rewrite floor_log_unit by lia. rewrite Nat2Z.id.
  unfold spec_unit. by repeat case_match.
Qed.

Example formatFileSize_0 : formatFileSize 0 = "0 Bytes".
Proof. reflexivity. Qed.
Example formatFileSize_1024 : formatFileSize 1024 = "1 KB".
Proof. reflexivity. Qed.
Example formatFileSize_1536 : formatFileSize 1536 = "1.5 KB".
Proof. reflexivity. Qed.
Example formatFileSize_GiB : formatFileSize 1073741824 = "1 GB".
Proof. reflexivity. Qed.

(** C2, at two tebibytes.  The unit index runs past the four units:
    [sizes[4]] is [undefined] and the value is scaled by 1024^4, where the
    largest of the four units with a scaled value of at least 1 is GB. *)
Theorem formatFileSize_beyond_units :
  formatFileSize 2199023255552 = "2 undefined"
  ∧ formatSize_spec 2199023255552 = "2048 GB".
Proof. split; reflexivity. Qed.

(** ** The theorems at work on the in-memory client *)

Lemma upload_rejects_foreign_type_witness :
  uploadVideo MemClient.readings Scenarios.picture "title" "text" false MemClient.empty =
    (MemClient.empty,
     [EvAuthGetUser] ++ [EvConsoleError "Upload error:" (Error msg_invalid_type)],
     Failure msg_invalid_type)
  ∧ quiet ([EvAuthGetUser] ++ [EvConsoleError "Upload error:" (Error msg_invalid_type)]).
Proof.
  apply (upload_rejects_foreign_type MemClient.readings Scenarios.picture "title" "text"
           false MemClient.empty MemClient.empty [EvAuthGetUser] MemClient.alice).
  - reflexivity.
  - apply (bool_decide_unpack _). vm_compute. exact I.
Defined.

(** A file of exactly 50 MiB passes the size check: the blob write is attempted. *)
Lemma upload_size_gate_witness :
  EvStorageUpload "videos" "videos/u1/1700000000000-82mvyr.mov" Scenarios.at_limit
    "3600" false
  ∈ (uploadVideo MemClient.readings Scenarios.at_limit "title" "text" false
       MemClient.empty).1.2.
Proof.
  apply (upload_size_gate MemClient.readings Scenarios.at_limit "title" "text"
           false MemClient.empty MemClient.empty [EvAuthGetUser] MemClient.alice).
  - reflexivity.
  - apply (bool_decide_unpack _). vm_compute. exact I.
  - vm_compute. discriminate.
Defined.

Lemma upload_metadata_failure_keeps_blob_witness :
  (uploadVideo MemClient.readings MemClient.clip "title" "text" false
     Scenarios.insert_down).2 = Failure "insert failed"
  ∧ "videos/u1/1700000000000-82mvyr.mp4"
    ∈ MemClient.mem_blobs
        (uploadVideo MemClient.readings MemClient.clip "title" "text" false
           Scenarios.insert_down).1.1.
Proof.
  pose (after_upload := (MemClient.upload "videos" "videos/u1/1700000000000-82mvyr.mp4"
                           MemClient.clip "3600" false Scenarios.insert_down).1.1).
  destruct (upload_metadata_failure_keeps_blob MemClient.readings MemClient.clip
              "title" "text" false
              Scenarios.insert_down Scenarios.insert_down after_upload after_upload
              [EvAuthGetUser] MemClient.alice
              [(1536, 1536)] {| path := "videos/u1/1700000000000-82mvyr.mp4" |}
              (MemClient.failed "insert failed") (Error "insert failed"))
    as [Hrun Hkept].
  - reflexivity.
  - apply (bool_decide_unpack _). vm_compute. exact I.
  - vm_compute. discriminate.
  - reflexivity.
  - reflexivity.
  - reflexivity.
  - split.
    + rewrite Hrun. reflexivity.
    + rewrite Hrun.
      apply (Hkept (λ m k, k ∈ MemClient.mem_blobs m)).
      * apply (bool_decide_unpack _). vm_compute. exact I.
      * intros m table rows k Hk. cbn. unfold MemClient.insert.
        destruct (MemClient.mem_insert_down m); exact Hk.
Defined.

Lemma upload_inserts_zero_duration_witness :
  ∃ inserted,
    EvInsert "videos" [inserted]
      ∈ (uploadVideo MemClient.readings MemClient.clip "title" "text" true
           MemClient.empty).1.2
    ∧ inserted !! "duration" = Some (VNum 0).
Proof.
  pose (out := uploadVideo MemClient.readings MemClient.clip "title" "text" true
                 MemClient.empty).
  assert (Hout : out = (out.1.1, out.1.2, out.2)) by (vm_compute; reflexivity).
  apply (proj2 (upload_inserts_zero_duration MemClient.readings MemClient.clip
                  "title" "text" true MemClient.empty out.1.1 out.1.2 out.2 Hout)
           "https://cdn.example/videos/videos/u1/1700000000000-82mvyr.mp4").
  reflexivity.
Defined.

(** Two videos of one owner and a failing profile fetch: both come back,
    each with the placeholder, and the call succeeds. *)
Lemma listing_survives_profile_outage_witness :
  ∃ out,
    getAllVideos Scenarios.profiles_down =
      (Scenarios.profiles_down,
       [EvSelectOrder "videos" "*" "created_at" false;
        EvSelectIn "profiles" "id, full_name, email" "id" (userIds_of Scenarios.two_by_alice);
        EvConsoleError "Profiles fetch error:" (Error "profiles unavailable")],
       Success out)
    ∧ length out = length Scenarios.two_by_alice
    ∧ (∀ i v, Scenarios.two_by_alice !! i = Some v →
         ∃ r, out !! i = Some r
           ∧ r = <["profiles" := VObj placeholder]> v
           ∧ r !! "profiles" = Some (VObj placeholder)
           ∧ (∀ k, k ≠ "profiles" → r !! k = v !! k)
           ∧ (v !! "profiles" = None → v ⊆ r ∧ delete "profiles" r = v))
    ∧ (∀ r, r ∈ out → r !! "profiles" = Some (VObj placeholder))
    ∧ placeholder !! "full_name" = Some (VStr "Unknown User")
    ∧ placeholder !! "email" = Some (VStr "unknown@email.com").
Proof.
  apply (listing_survives_profile_outage Scenarios.profiles_down Scenarios.profiles_down
           Scenarios.profiles_down (MemClient.ok Scenarios.two_by_alice)
           (Scenarios.row 2 "second" "u1") [Scenarios.row 1 "first" "u1"]
           (MemClient.failed "profiles unavailable") (Error "profiles unavailable"));
    reflexivity.
Defined.

(** The orphaned record gets the placeholder, the other keeps its profile. *)
Lemma listing_joins_profiles_witness :
  ∃ out,
    getAllVideos Scenarios.orphaned =
      (Scenarios.orphaned,
       [EvSelectOrder "videos" "*" "created_at" false;
        EvSelectIn "profiles" "id, full_name, email" "id" (userIds_of Scenarios.with_orphan)],
       Success out)
    ∧ length out = length Scenarios.with_orphan
    ∧ ∀ i v, Scenarios.with_orphan !! i = Some v →
        ∃ r, out !! i = Some r ∧
          ((∃ p, p ∈ [Scenarios.alice_profile]
                 ∧ p !! "id" = v !! "uploaded_by"
                 ∧ strict_eq (p !! "id") (v !! "uploaded_by") = true
                 ∧ r !! "profiles" = Some (VObj p))
           ∨ ((∀ p, p ∈ [Scenarios.alice_profile] →
                    strict_eq (p !! "id") (v !! "uploaded_by") = false)
              ∧ r !! "profiles" = Some (VObj placeholder))).
Proof.
  apply (listing_joins_profiles Scenarios.orphaned Scenarios.orphaned Scenarios.orphaned
           (MemClient.ok Scenarios.with_orphan)
           (Scenarios.row 2 "second" "u9") [Scenarios.row 1 "first" "u1"]
           (MemClient.ok [Scenarios.alice_profile]) [Scenarios.alice_profile]);
    reflexivity.
Defined.

Lemma listing_preserves_records_witness :
  ∃ out,
    (getAllVideos Scenarios.orphaned).2 = Success out
    ∧ length out = length Scenarios.with_orphan
    ∧ ∀ i v, Scenarios.with_orphan !! i = Some v →
        ∃ r, out !! i = Some r
          ∧ is_Some (r !! "profiles")
          ∧ (∀ k, k ≠ "profiles" → r !! k = v !! k)
          ∧ (v !! "profiles" = None → v ⊆ r ∧ delete "profiles" r = v).
Proof.
  apply (listing_preserves_records Scenarios.orphaned Scenarios.orphaned Scenarios.orphaned
           (MemClient.ok Scenarios.with_orphan) (MemClient.ok [Scenarios.alice_profile])).
  - reflexivity.
  - reflexivity.
  - vm_compute. reflexivity.
  - right. eexists. reflexivity.
Defined.

(** The in-memory [single()] keeps the promise. *)
Lemma MemClient_single_contract :
  single_contract (λ (m : MemClient.Mem) (table column : string) (v : value),
    filter (λ r, Is_true (strict_eq (r !! column) (Some v))) (MemClient.mem_videos m)).
Proof.
  intros table columns column v m. cbn. unfold MemClient.select_single.
  destruct (filter _ _) as [|r [|r' rows]]; cbn; eauto.
Qed.

(** No row with id 3: [single()] reports it, and the detail view fails. *)
Lemma detail_of_missing_id_fails_witness :
  ∃ e,
    getVideoById (VNum 3) Scenarios.orphaned =
      (Scenarios.orphaned,
       [EvSelectSingle "videos" detail_columns "id" (VNum 3);
        EvConsoleError "Get video error:" e],
       Failure (message e))
    ∧ ∀ payload, (getVideoById (VNum 3) Scenarios.orphaned).2 ≠ Success payload.
Proof.
  destruct (detail_of_missing_id_fails
              (λ (m : MemClient.Mem) (table column : string) (v : value),
                 filter (λ r, Is_true (strict_eq (r !! column) (Some v)))
                   (MemClient.mem_videos m))
              (VNum 3) Scenarios.orphaned) as (e & Hrun & Hnever).
  - exact MemClient_single_contract.
  - vm_compute. reflexivity.
  - exists e. split; [exact Hrun | exact Hnever].
Defined.

(** * Further properties *)

(** ** Uploads *)

Section UploadFacts.
Context {B : Type} `{client : SupabaseClient B}.

(** [getCurrentUser] hands back the user of an answer without error, and
    [null] for an answer with one, which it logs; it never throws and
    calls the auth service once. *)
Lemma getCurrentUser_total (b : B) :
  ∃ user,
    getCurrentUser b =
      ((auth_getUser b).1,
       EvAuthGetUser ::
         match error (auth_getUser b).2 with
         | Some e => [EvConsoleError "Get user error:" e]
         | None => []
         end,
       inr user)
    ∧ user = match error (auth_getUser b).2 with
             | Some _ => None
             | None => data (auth_getUser b).2
             end.
Proof.
  rewrite getCurrentUser_run. destruct (error _); eauto.
Qed.

Lemma uploadVideo_no_user (amb : Ambient) (file : File)
    (title description : string) (onProgress : bool) (b b1 : B) t :
  getCurrentUser b = (b1, t, inr None) →
  uploadVideo amb file title description onProgress b =
    (b1, t ++ [EvConsoleError "Upload error:" (Error msg_not_authenticated)],
     Failure msg_not_authenticated).
Proof.
  intros Hu. unfold uploadVideo, guarded, uploadVideo_try.
  rewrite (bind_run_ok _ _ _ _ _ _ Hu). run. by rewrite app_nil_r.
Qed.

(** Without a resolved user the upload fails with "User not
    authenticated", whatever the file, and nothing reaches the storage
    client or the database. *)
Theorem upload_requires_user (amb : Ambient) (file : File)
    (title description : string) (onProgress : bool) (b b1 : B) t :
  getCurrentUser b = (b1, t, inr None) →
  uploadVideo amb file title description onProgress b =
    (b1, t ++ [EvConsoleError "Upload error:" (Error msg_not_authenticated)],
     Failure msg_not_authenticated)
  ∧ quiet (t ++ [EvConsoleError "Upload error:" (Error msg_not_authenticated)]).
Proof.
  intros Hu. split; [by apply uploadVideo_no_user |].
  apply quiet_app; [by apply (getCurrentUser_quiet _ _ _ _ Hu) | repeat constructor].
Qed.

(** An error of the auth service never shows in the upload's result: the
    caller is told "User not authenticated", and the service's own message
    only goes to the console. *)
Theorem upload_masks_auth_error (amb : Ambient) (file : File)
    (title description : string) (onProgress : bool) (b : B) e :
  error (auth_getUser b).2 = Some e →
  uploadVideo amb file title description onProgress b =
    ((auth_getUser b).1,
     [EvAuthGetUser; EvConsoleError "Get user error:" e;
      EvConsoleError "Upload error:" (Error msg_not_authenticated)],
     Failure msg_not_authenticated).
Proof.
  intros He.
  assert (Hu : getCurrentUser b =
                 ((auth_getUser b).1,
                  [EvAuthGetUser; EvConsoleError "Get user error:" e], inr None)).
  { by rewrite getCurrentUser_run, He. }
  by rewrite (uploadVideo_no_user amb file title description onProgress _ _ _ Hu).
Qed.

(** When the blob write fails the upload fails with the storage error's
    message; the locator is not asked for and the database is not
    touched. *)
Theorem upload_storage_failure (amb : Ambient) (file : File)
    (title description : string) (onProgress : bool) (b b1 b2 : B) t u pr up e :
  getCurrentUser b = (b1, t, inr (Some u)) →
  file_type file ∈ validTypes →
  file_size file ≤ max_size →
  let key := storage_key (user_id u) (Date_now amb) (random_toString36 amb)
               (fileExt_of file) in
  storage_upload "videos" key file "3600" false b1 = (b2, pr, up) →
  error up = Some e →
  uploadVideo amb file title description onProgress b =
    (b2,
     t ++ EvStorageUpload "videos" key file "3600" false
       :: forwarded onProgress pr ++ [EvConsoleError "Upload error:" e],
     Failure (message e))
  ∧ ∀ ev, ev ∈ (uploadVideo amb file title description onProgress b).1.2 →
      is_db_call ev = false ∧ ∀ bucket k, ev ≠ EvGetPublicUrl bucket k.
Proof.
  intros Hu Hty Hsz key Hup Herr.
  assert (Hrun : uploadVideo amb file title description onProgress b =
            (b2,
             t ++ EvStorageUpload "videos" key file "3600" false
               :: forwarded onProgress pr ++ [EvConsoleError "Upload error:" e],
             Failure (message e))).
  { apply includes_elem_of in Hty. apply Z.ltb_ge in Hsz.
    unfold uploadVideo, guarded, uploadVideo_try.
    rewrite (bind_run_ok _ _ _ _ _ _ Hu), Hty. run. rewrite Hsz. run.
    unfold call_upload at 1. fold key. rewrite Hup, Herr. cbn.
    rewrite !app_nil_r, <- app_assoc. reflexivity. }
  split; [done |]. rewrite Hrun. cbn [fst snd]. intros ev Hev.
  apply elem_of_app in Hev as [Hev | Hev].
  - destruct (getCurrentUser_quiet _ _ _ _ Hu) as [Hq _].
    unfold quiet in Hq. rewrite Forall_forall in Hq. destruct (Hq _ Hev) as [Hs Hd].
    split; [done |]. intros bucket k ->. discriminate Hs.
  - apply elem_of_cons in Hev as [-> | Hev]; [by split |].
    apply elem_of_app in Hev as [Hev | Hev].
    + unfold forwarded in Hev. destruct onProgress; [| by apply elem_of_nil in Hev].
      apply list_elem_of_fmap in Hev as (p & -> & _). by split.
    + apply list_elem_of_singleton in Hev as ->. by split.
Qed.

(** A successful upload: the caller gets the locator the storage client
    derives from the key it stored; between the blob write and the return
    there is that lookup and one insert, of a record that carries the stored
    key, the locator, the caller's id and the file's name, size and type. *)
Theorem upload_success (amb : Ambient) (file : File)
    (title description : string) (onProgress : bool)
    (b b1 b2 b3 : B) t u pr d ins :
  getCurrentUser b = (b1, t, inr (Some u)) →
  file_type file ∈ validTypes →
  file_size file ≤ max_size →
  let key := storage_key (user_id u) (Date_now amb) (random_toString36 amb)
               (fileExt_of file) in
  storage_upload "videos" key file "3600" false b1 =
    (b2, pr, {| data := Some d; error := None |}) →
  let publicUrl := storage_getPublicUrl "videos" (path d) b2 in
  let record := video_record title description file (path d) publicUrl
                  (user_id u) (toISOString amb) in
  db_insert "videos" [record] b2 = (b3, ins) →
  error ins = None →
  uploadVideo amb file title description onProgress b =
    (b3,
     t ++ EvStorageUpload "videos" key file "3600" false
       :: forwarded onProgress pr
       ++ [EvGetPublicUrl "videos" (path d); EvInsert "videos" [record]],
     Success publicUrl)
  ∧ record !! "storage_path" = Some (VStr (path d))
  ∧ record !! "video_url" = Some (VStr publicUrl)
  ∧ record !! "uploaded_by" = Some (VStr (user_id u))
  ∧ record !! "file_name" = Some (VStr (file_name file))
  ∧ record !! "file_size" = Some (VNum (file_size file))
  ∧ record !! "file_type" = Some (VStr (file_type file))
  ∧ record !! "title" = Some (VStr title)
  ∧ record !! "description" = Some (VStr description)
  ∧ record !! "created_at" = Some (VStr (toISOString amb))
  ∧ record !! "id" = None.
Proof.
  intros Hu Hty Hsz key Hup publicUrl record Hins Herr. split.
  - apply includes_elem_of in Hty. apply Z.ltb_ge in Hsz.
    unfold uploadVideo, guarded, uploadVideo_try.
    rewrite (bind_run_ok _ _ _ _ _ _ Hu), Hty. run. rewrite Hsz. run.
    unfold call_upload at 1. fold key. rewrite Hup. cbn [error data]. run.
    unfold call_getPublicUrl at 1. run.
    unfold call_insert at 1. fold publicUrl record. rewrite Hins, Herr. cbn.
    reflexivity.
  - unfold record, video_record. repeat split; by simplify_map_eq.
Qed.

End UploadFacts.

(** Walk through every way [uploadVideo] can run. *)
Ltac upload_cases :=
  unfold uploadVideo, guarded, uploadVideo_try;
  rewrite bind_run, getCurrentUser_run;
  destruct (auth_getUser _) as [?b1 ?au]; cbn [fst snd];
  destruct (error au) as [?authError|] eqn:?; [| destruct (data au) as [?u|] eqn:?]; run;
  repeat match goal with
    | |- context [includes validTypes ?x] =>
        destruct (includes validTypes x) eqn:?; run
    | |- context [max_size <? ?x] =>
        destruct (max_size <? x) eqn:?; run
    | |- context [call_upload ?bk ?k ?f ?cc ?ups ?op ?s] =>
        unfold call_upload at 1;
        destruct (storage_upload bk k f cc ups s) as [[?b2 ?pr] ?up] eqn:?;
        destruct (error up) as [?storageError|] eqn:?;
          [| destruct (data up) as [?d|] eqn:?]; run
    | |- context [call_getPublicUrl ?bk ?k ?s] =>
        unfold call_getPublicUrl at 1; run
    | |- context [call_insert ?t ?rows ?s] =>
        unfold call_insert at 1;
        destruct (db_insert t rows s) as [?b3 ?ins] eqn:?;
        destruct (error ins) as [?dbError|] eqn:?; run
    end;
  cbn [fst snd].

Section UploadInvariants.
Context {B : Type} `{client : SupabaseClient B}.

Lemma not_forwarded_upload onProgress pr bucket key f cc upsert :
  EvStorageUpload bucket key f cc upsert ∉ forwarded onProgress pr.
Proof.
  unfold forwarded. destruct onProgress; [| apply not_elem_of_nil].
  rewrite list_elem_of_fmap. by intros (p & [=] & _).
Qed.

(** Whatever the inputs and the backend, a blob is only ever written for a
    resolved user and a file that passed both checks, into the bucket
    [videos], under that user's folder, and never with [upsert]. *)
Theorem upload_writes_own_folder (amb : Ambient) (file : File)
    (title description : string) (onProgress : bool) (b : B) :
  ∀ bucket key f cacheControl upsert,
    EvStorageUpload bucket key f cacheControl upsert
      ∈ (uploadVideo amb file title description onProgress b).1.2 →
    bucket = "videos" ∧ f = file ∧ cacheControl = "3600" ∧ upsert = false
    ∧ file_type file ∈ validTypes
    ∧ file_size file ≤ max_size
    ∧ ∃ u, data (auth_getUser b).2 = Some u
        ∧ error (auth_getUser b).2 = None
        ∧ key = storage_key (user_id u) (Date_now amb) (random_toString36 amb)
                  (fileExt_of file).
Proof.
  intros bucket key f cacheControl upsert.
  upload_cases; intros Hin;
    repeat first [rewrite elem_of_app in Hin | rewrite elem_of_cons in Hin
                 | rewrite elem_of_nil in Hin];
    try match goal with
        | pr : Progress |- _ =>
            pose proof (not_forwarded_upload onProgress pr bucket key f cacheControl upsert)
              as Hnf; unfold forwarded in Hnf
        end;
    first
      [ by (exfalso; naive_solver)
      | assert (Heq : EvStorageUpload bucket key f cacheControl upsert =
          EvStorageUpload "videos"
            (storage_key (user_id u) (Date_now amb) (random_toString36 amb)
               (fileExt_of file)) file "3600" false) by naive_solver;
        injection Heq as -> -> -> -> ->;
        repeat split; try done;
        [ by apply includes_elem_of | by apply Z.ltb_ge | by exists u ] ].
Qed.

Lemma not_forwarded_insert onProgress pr table rows :
  EvInsert table rows ∉ forwarded onProgress pr.
Proof.
  unfold forwarded. destruct onProgress; [| apply not_elem_of_nil].
  rewrite list_elem_of_fmap. by intros (p & [=] & _).
Qed.

Lemma not_forwarded_console onProgress pr label e :
  EvConsoleError label e ∉ forwarded onProgress pr.
Proof.
  unfold forwarded. destruct onProgress; [| apply not_elem_of_nil].
  rewrite list_elem_of_fmap. by intros (p & [=] & _).
Qed.

(** No metadata without a blob: whatever the inputs and the backend, a
    record is only inserted after the storage client has answered the
    blob write with a path and no error, and the record inserted is the one
    built from that path and its locator. *)
Theorem upload_inserts_after_blob (amb : Ambient) (file : File)
    (title description : string) (onProgress : bool) (b : B) :
  ∀ table rows,
    EvInsert table rows ∈ (uploadVideo amb file title description onProgress b).1.2 →
    ∃ u d,
      data (auth_getUser b).2 = Some u
      ∧ (let stored :=
           storage_upload "videos"
             (storage_key (user_id u) (Date_now amb) (random_toString36 amb)
                (fileExt_of file))
             file "3600" false (auth_getUser b).1 in
         error stored.2 = None
         ∧ data stored.2 = Some d
         ∧ table = "videos"
         ∧ rows = [video_record title description file (path d)
                     (storage_getPublicUrl "videos" (path d) stored.1.1)
                     (user_id u) (toISOString amb)]).
Proof.
  intros table rows.
  upload_cases; intros Hin;
    repeat first [rewrite elem_of_app in Hin | rewrite elem_of_cons in Hin
                 | rewrite elem_of_nil in Hin];
    try match goal with
        | pr : Progress |- _ =>
            pose proof (not_forwarded_insert onProgress pr table rows) as Hnf;
            unfold forwarded in Hnf
        end;
    first
      [ by (exfalso; naive_solver)
      | assert (Heq : EvInsert table rows =
          EvInsert "videos"
            [video_record title description file (path d)
               (storage_getPublicUrl "videos" (path d) b2)
               (user_id u) (toISOString amb)]) by naive_solver;
        injection Heq as -> ->;
        exists u, d; split; [done |];
        match goal with H : storage_upload _ _ _ _ _ _ = _ |- _ => rewrite H end;
        by cbn ].
Qed.

Lemma uploadVideo_try_silent (amb : Ambient) (file : File)
    (title description : string) (onProgress : bool) (b : B) :
  ∀ e, EvConsoleError "Upload error:" e
         ∉ (uploadVideo_try amb file title description onProgress b).1.2.
Proof.
  upload_cases; intros e' Hin;
    try match goal with
        | pr : Progress |- _ =>
            pose proof (not_forwarded_console onProgress pr "Upload error:" e') as Hnf;
            unfold forwarded in Hnf
        end;
    repeat first [rewrite elem_of_app in Hin | rewrite elem_of_cons in Hin
                 | rewrite elem_of_nil in Hin];
    naive_solver.
Qed.

(** A failed upload is logged once, last, under "Upload error:", with the
    error whose message the caller gets; a successful one logs nothing
    under that label. *)
Theorem upload_failure_logged (amb : Ambient) (file : File)
    (title description : string) (onProgress : bool) (b : B) :
  match (uploadVideo amb file title description onProgress b).2 with
  | Failure msg =>
      ∃ before e,
        (uploadVideo amb file title description onProgress b).1.2 =
          before ++ [EvConsoleError "Upload error:" e]
        ∧ message e = msg
        ∧ ∀ e', EvConsoleError "Upload error:" e' ∉ before
  | Success _ =>
      ∀ e', EvConsoleError "Upload error:" e'
              ∉ (uploadVideo amb file title description onProgress b).1.2
  end.
Proof.
  pose proof (uploadVideo_try_silent amb file title description onProgress b) as Hsilent.
  unfold uploadVideo, guarded.
  destruct (uploadVideo_try amb file title description onProgress b) as [[b1 t1] [e|url]];
    cbn in *; [| done].
  by exists t1, e.
Qed.

End UploadInvariants.

(** ** Listing and detail *)

Lemma strict_eq_sym (a b : option value) : strict_eq a b = strict_eq b a.
Proof.
  destruct a as [[]|], b as [[]|]; cbn; try done.
  - by destruct b0, b.
  - apply Z.eqb_sym.
  - apply String.eqb_sym.
Qed.

Lemma existsb_strict_eq_elem (x : option value) (seen : list (option value)) :
  existsb (strict_eq x) seen = true → x ∈ seen.
Proof.
  rewrite existsb_exists. intros (s & Hin & Heq).
  apply strict_eq_true in Heq as ->. by apply list_elem_of_In.
Qed.

Lemma new_Set_complete (seen l : list (option value)) (x : option value) :
  x ∈ l → x ∈ seen ∨ x ∈ new_Set seen l.
Proof.
  revert seen. induction l as [|y l IH]; intros seen Hx; [by apply elem_of_nil in Hx |].
  cbn. apply elem_of_cons in Hx as [-> | Hx].
  - destruct (existsb (strict_eq y) seen) eqn:Hy.
    + left. by apply existsb_strict_eq_elem.
    + right. left.
  - destruct (existsb (strict_eq y) seen) eqn:Hy.
    + by apply IH.
    + destruct (IH (seen ++ [y]) Hx) as [Hs | Hn].
      * apply elem_of_app in Hs as [Hs | Hs]; [by left |].
        apply list_elem_of_singleton in Hs as ->. right. left.
      * right. by right.
Qed.

Lemma new_Set_sound (seen l : list (option value)) (x : option value) :
  x ∈ new_Set seen l → x ∈ l ∧ existsb (strict_eq x) seen = false.
Proof.
  revert seen. induction l as [|y l IH]; intros seen Hx; cbn in Hx;
    [by apply elem_of_nil in Hx |].
  destruct (existsb (strict_eq y) seen) eqn:Hy.
  - destruct (IH _ Hx). split; [by right | done].
  - apply elem_of_cons in Hx as [-> | Hx]; [split; [left | done] |].
    destruct (IH _ Hx) as [Hl Hs]. split; [by right |].
    rewrite existsb_app in Hs. by apply orb_false_elim in Hs as [? _].
Qed.

Lemma new_Set_distinct (seen l : list (option value)) (i j : nat) (x y : option value) :
  (i < j)%nat → new_Set seen l !! i = Some x → new_Set seen l !! j = Some y →
  strict_eq y x = false.
Proof.
  revert seen i j. induction l as [|z l IH]; intros seen i j Hij Hi Hj; cbn in *; [done |].
  destruct (existsb (strict_eq z) seen) eqn:Hz; [by eapply IH |].
  destruct i as [|i], j as [|j]; try lia; cbn in *.
  - injection Hi as ->.
    apply list_elem_of_lookup_2, new_Set_sound in Hj as [_ Hs].
    rewrite existsb_app in Hs. apply orb_false_elim in Hs as [_ Hs].
    cbn in Hs. by rewrite orb_false_r in Hs.
  - eapply IH; [| done..]. lia.
Qed.

(** The ids the profile query asks for: every owner of a fetched record is
    among them, each of them owns a fetched record, and no two of them are
    [===]: each owner is asked for once. *)
Theorem userIds_each_owner_once (videos : list obj) :
  (∀ v, v ∈ videos → v !! "uploaded_by" ∈ userIds_of videos)
  ∧ (∀ x, x ∈ userIds_of videos → ∃ v, v ∈ videos ∧ v !! "uploaded_by" = x)
  ∧ (∀ i j x y, i ≠ j →
       userIds_of videos !! i = Some x → userIds_of videos !! j = Some y →
       strict_eq x y = false).
Proof.
  unfold userIds_of. split; [| split].
  - intros v Hv.
    destruct (new_Set_complete [] ((λ video : obj, video !! "uploaded_by") <$> videos)
                (v !! "uploaded_by")) as [Hnil | Hin]; [| by apply elem_of_nil in Hnil | done].
    apply list_elem_of_fmap. by exists v.
  - intros x Hx. apply new_Set_sound in Hx as [Hx _].
    apply list_elem_of_fmap in Hx as (v & -> & Hv). by exists v.
  - intros i j x y Hij Hi Hj.
    destruct (Nat.lt_gt_cases i j) as [Hcases _]. destruct (Hcases Hij) as [Hlt | Hgt].
    + rewrite strict_eq_sym. by eapply new_Set_distinct.
    + by eapply new_Set_distinct.
Qed.

Section ListingFacts.
Context {B : Type} `{client : SupabaseClient B}.

(** An empty catalogue is a success with an empty list, and the profile
    table is not queried. *)
Theorem listing_of_empty_catalogue (b b1 : B) vr :
  db_select_order "videos" "*" "created_at" false b = (b1, vr) →
  error vr = None →
  data vr = None ∨ data vr = Some [] →
  getAllVideos b = (b1, [EvSelectOrder "videos" "*" "created_at" false], Success []).
Proof.
  intros Hv Herr Hdata.
  unfold getAllVideos, guarded, getAllVideos_try. run.
  unfold call_select_order at 1. rewrite Hv, Herr.
  by destruct Hdata as [-> | ->].
Qed.

(** When the catalogue query fails the listing fails with its message,
    and the profile table is not queried. *)
Theorem listing_fetch_error (b b1 : B) vr videosError :
  db_select_order "videos" "*" "created_at" false b = (b1, vr) →
  error vr = Some videosError →
  getAllVideos b =
    (b1,
     [EvSelectOrder "videos" "*" "created_at" false;
      EvConsoleError "Get videos error:" videosError],
     Failure (message videosError)).
Proof.
  intros Hv Herr.
  unfold getAllVideos, guarded, getAllVideos_try. run.
  unfold call_select_order at 1. by rewrite Hv, Herr.
Qed.

(** The listing only reads: whatever the backend answers, its trace is the
    catalogue query, newest first, then at most the profile query for the
    owners' ids, then at most one log entry. *)
Theorem listing_only_reads (b : B) :
  ∃ rest,
    (getAllVideos b).1.2 = EvSelectOrder "videos" "*" "created_at" false :: rest
    ∧ (rest = []
       ∨ (∃ label e, rest = [EvConsoleError label e])
       ∨ ∃ videos tail,
           data (db_select_order "videos" "*" "created_at" false b).2 = Some videos
           ∧ rest = EvSelectIn "profiles" "id, full_name, email" "id" (userIds_of videos)
                      :: tail
           ∧ (tail = [] ∨ ∃ label e, tail = [EvConsoleError label e])).
Proof.
  unfold getAllVideos, guarded, getAllVideos_try. run.
  unfold call_select_order at 1.
  destruct (db_select_order "videos" "*" "created_at" false b) as [b1 vr]. cbn [fst snd].
  destruct (error vr) as [e|]; run; [eexists; split; [done |]; eauto |].
  destruct (data vr) as [[|video videos]|]; run; try (eexists; split; [done |]; eauto).
  unfold call_select_in at 1.
  destruct (db_select_in _ _ _ _ _) as [b2 pr].
  destruct (error pr) as [e|]; [| destruct (data pr) as [profiles|]]; run; cbn;
    (eexists; split; [done |]); right; right; eexists _, _; (split; [done |]);
    (split; [done |]); eauto.
Qed.

(** With a client whose [single()] keeps its promise, the detail view of
    an id that selects one row is that row as the client returned it:
    nothing is logged and no placeholder is put in. *)
Theorem detail_of_single_match
    (matching : B → string → string → value → list obj) (videoId : value) (b : B) r :
  single_contract matching →
  matching b "videos" "id" videoId = [r] →
  getVideoById videoId b =
    ((db_select_single "videos" detail_columns "id" videoId b).1,
     [EvSelectSingle "videos" detail_columns "id" videoId],
     Success (Some r)).
Proof.
  intros Hsingle Hone.
  specialize (Hsingle "videos" detail_columns "id" videoId b).
  rewrite Hone in Hsingle.
  unfold getVideoById, guarded, getVideoById_try. run.
  unfold call_select_single at 1.
  destruct (db_select_single "videos" detail_columns "id" videoId b) as [b1 resp].
  cbn in Hsingle. subst resp. by run.
Qed.

(** An id that selects several rows is a failure as well: the detail view
    never picks one of them. *)
Theorem detail_of_ambiguous_id_fails
    (matching : B → string → string → value → list obj) (videoId : value) (b : B) :
  single_contract matching →
  (2 ≤ length (matching b "videos" "id" videoId))%nat →
  ∃ e,
    getVideoById videoId b =
      ((db_select_single "videos" detail_columns "id" videoId b).1,
       [EvSelectSingle "videos" detail_columns "id" videoId;
        EvConsoleError "Get video error:" e],
       Failure (message e)).
Proof.
  intros Hsingle Hmany.
  specialize (Hsingle "videos" detail_columns "id" videoId b).
  destruct (matching b "videos" "id" videoId) as [|r1 [|r2 rows]]; cbn in Hmany; try lia.
  destruct Hsingle as [e He].
  destruct (db_select_single "videos" detail_columns "id" videoId b) as [b1 r] eqn:Hq.
  exists e. by rewrite (getVideoById_error _ _ _ _ _ Hq He).
Qed.

(** [getUserProfile] never throws: it returns the row of an answer without
    error and [null] for an answer with one, which it logs. *)
Lemma getUserProfile_total (userId : value) (b : B) :
  let answer := db_select_single "profiles" "*" "id" userId b in
  getUserProfile userId b =
    (answer.1,
     EvSelectSingle "profiles" "*" "id" userId ::
       match error answer.2 with
       | Some e => [EvConsoleError "Get profile error:" e]
       | None => []
       end,
     inr match error answer.2 with
         | Some _ => None
         | None => data answer.2
         end).
Proof.
  cbv zeta. unfold getUserProfile, try_catch. rewrite bind_run.
  unfold call_select_single.
  destruct (db_select_single "profiles" "*" "id" userId b) as [b1 r]. cbn.
  by destruct (error r).
Qed.

(** With a client whose [single()] keeps its promise, [getUserProfile]
    returns the one profile an id selects, and [null], with one log entry,
    for an id that selects none or several. *)
Theorem getUserProfile_lookup
    (matching : B → string → string → value → list obj) (userId : value) (b : B) :
  single_contract matching →
  match matching b "profiles" "id" userId with
  | [r] =>
      getUserProfile userId b =
        ((db_select_single "profiles" "*" "id" userId b).1,
         [EvSelectSingle "profiles" "*" "id" userId], inr (Some r))
  | _ =>
      ∃ e,
        getUserProfile userId b =
          ((db_select_single "profiles" "*" "id" userId b).1,
           [EvSelectSingle "profiles" "*" "id" userId;
            EvConsoleError "Get profile error:" e], inr None)
  end.
Proof.
  intros Hsingle. specialize (Hsingle "profiles" "*" "id" userId b).
  pose proof (getUserProfile_total userId b) as Hrun. cbv zeta in Hrun.
  destruct (matching b "profiles" "id" userId) as [|r [|r' rows]].
  - destruct Hsingle as [e He]. exists e. by rewrite Hrun, He.
  - by rewrite Hrun, Hsingle.
  - destruct Hsingle as [e He]. exists e. by rewrite Hrun, He.
Qed.

End ListingFacts.

(** ** File names and storage keys *)

Lemma split_nonempty (c : ascii) (s : string) : split c s ≠ [].
Proof.
  destruct s as [|a s]; cbn; [done |].
  destruct (Ascii.eqb a c); [done |]. by destruct (split c s).
Qed.

Lemma string_app_assoc (s t u : string) : ((s ++ t) ++ u = s ++ t ++ u)%string.
Proof.
  apply list_ascii_of_string_inj. rewrite !list_ascii_of_string_app.
  by rewrite app_assoc.
Qed.

Lemma join_cons (c : ascii) (x : string) (l : list string) :
  l ≠ [] → join c (x :: l) = (x ++ String c (join c l))%string.
Proof. by destruct l. Qed.

(** [s.split(c).join(c)] is [s]. *)
Lemma join_split (c : ascii) (s : string) : join c (split c s) = s.
Proof.
  induction s as [|a s IH]; [done |]. cbn [split].
  destruct (Ascii.eqb a c) eqn:Hac.
  - apply Ascii.eqb_eq in Hac as ->.
    rewrite join_cons by apply split_nonempty. by rewrite IH.
  - pose proof (split_nonempty c s) as Hne.
    destruct (split c s) as [|h t]; [done |].
    destruct t as [|h' t]; [cbn in *; by rewrite IH |].
    rewrite join_cons by done. rewrite join_cons in IH by done.
    by rewrite <- IH.
Qed.

Lemma split_segments (c : ascii) (s : string) :
  Forall (λ seg, has_char c seg = false) (split c s).
Proof.
  induction s as [|a s IH]; [by repeat constructor |]. cbn [split].
  destruct (Ascii.eqb a c) eqn:Hac; [by constructor |].
  destruct (split c s) as [|h t]; [repeat constructor; cbn; by rewrite Hac |].
  inversion IH; subst. constructor; [cbn; by rewrite Hac | done].
Qed.

Lemma join_snoc (c : ascii) (l : list string) (x : string) :
  l ≠ [] → join c (l ++ [x]) = (join c l ++ String c x)%string.
Proof.
  induction l as [|y l IH]; [done |]. intros _.
  destruct l as [|z l]; [reflexivity |].
  change ((y :: z :: l) ++ [x]) with (y :: ((z :: l) ++ [x])).
  rewrite join_cons by (by destruct l).
  rewrite IH by done. rewrite (join_cons c y (z :: l)) by done.
  by rewrite string_app_assoc.
Qed.

Lemma has_char_app (c : ascii) (s t : string) :
  has_char c (s ++ t) = has_char c s || has_char c t.
Proof.
  induction s as [|a s IH]; [done |].
  change (has_char c (String a s ++ t)) with (Ascii.eqb a c || has_char c (s ++ t)).
  by rewrite IH, orb_assoc.
Qed.

(** The extension put into the key is the text after the last dot of the
    file name: it holds no dot, a name without a dot is taken whole, and a
    name with one is a stem, a dot and the extension. *)
Theorem fileExt_after_last_dot (file : File) :
  has_char "." (fileExt_of file) = false
  ∧ (has_char "." (file_name file) = false → fileExt_of file = file_name file)
  ∧ (has_char "." (file_name file) = true →
       ∃ stem, file_name file = (stem ++ "." ++ fileExt_of file)%string).
Proof.
  unfold fileExt_of, pop_str.
  pose proof (split_nonempty "." (file_name file)) as Hne.
  pose proof (split_segments "." (file_name file)) as Hseg.
  pose proof (join_split "." (file_name file)) as Hjoin.
  destruct (split "." (file_name file)) as [|h l] using rev_ind; [done |].
  clear IHl. rewrite last_snoc. cbn [default].
  apply Forall_app in Hseg as [Hinit Hlast]. inversion Hlast; subst.
  split; [done |].
  destruct l as [|y l].
  - cbn in Hjoin. subst h. split; [done |]. intros Hdot. congruence.
  - rewrite join_snoc in Hjoin by done. split.
    + intros Hno. rewrite <- Hjoin, has_char_app in Hno. cbn in Hno.
      by rewrite orb_true_r in Hno.
    + intros _. by exists (join "." (y :: l)).
Qed.

Lemma app_separator_inj (c : ascii) (s1 s2 t1 t2 : string) :
  has_char c s1 = false → has_char c s2 = false →
  (s1 ++ String c t1 = s2 ++ String c t2)%string → s1 = s2 ∧ t1 = t2.
Proof.
  revert s2. induction s1 as [|a s1 IH]; intros [|a2 s2]; cbn; intros H1 H2 Heq.
  - by injection Heq as ->.
  - injection Heq as <- _. by rewrite Ascii.eqb_refl in H2.
  - injection Heq as -> _. by rewrite Ascii.eqb_refl in H1.
  - injection Heq as -> Heq.
    apply orb_false_elim in H1 as [_ H1]. apply orb_false_elim in H2 as [_ H2].
    destruct (IH _ H1 H2 Heq) as [-> ->]. done.
Qed.

Lemma string_of_uint_digits (c : ascii) (d : Decimal.uint) :
  (c = "-" ∨ c = "/")%char → has_char c (NilEmpty.string_of_uint d) = false.
Proof.
  intros Hc. induction d; cbn; [done | rewrite IHd; by destruct Hc as [-> | ->]..].
Qed.

(** The decimal text of a timestamp holds no minus sign. *)
Lemma string_of_Z_digits (n : Z) : 0 ≤ n → has_char "-" (string_of_Z n) = false.
Proof.
  intros Hn. unfold string_of_Z. destruct n as [|p|p]; [done | | lia].
  cbn. unfold NilZero.string_of_uint.
  pose proof (string_of_uint_digits "-" (Pos.to_uint p) (or_introl eq_refl)) as Hd.
  by destruct (Pos.to_uint p).
Qed.

Lemma string_of_Z_inj (n m : Z) : string_of_Z n = string_of_Z m → n = m.
Proof.
  unfold string_of_Z. intros H. apply DecimalZ.to_int_inj.
  assert (Hok : ∀ z, Z.to_int z ≠ Decimal.Pos Decimal.Nil
                   ∧ Z.to_int z ≠ Decimal.Neg Decimal.Nil).
  { intros [|p|p]; cbn; split; try done; intros [= Hp];
      by apply DecimalPos.Unsigned.to_uint_nonnil in Hp. }
  destruct (Hok n) as [Hn1 Hn2], (Hok m) as [Hm1 Hm2].
  pose proof (NilZero.isi _ Hn1 Hn2) as Hin. pose proof (NilZero.isi _ Hm1 Hm2) as Him.
  rewrite H in Hin. congruence.
Qed.

(** Keys keep users and milliseconds apart: when the ids hold no slash,
    two equal keys were derived for the same user, in the same millisecond,
    from draws and extensions that leave the same text after the dash. *)
Theorem storage_key_inj (uid1 uid2 : string) (now1 now2 : Z)
    (rnd1 rnd2 ext1 ext2 : string) :
  has_char "/" uid1 = false → has_char "/" uid2 = false →
  0 ≤ now1 → 0 ≤ now2 →
  storage_key uid1 now1 rnd1 ext1 = storage_key uid2 now2 rnd2 ext2 →
  uid1 = uid2 ∧ now1 = now2
  ∧ (substring_from 7 rnd1 ++ "." ++ ext1 = substring_from 7 rnd2 ++ "." ++ ext2)%string.
Proof.
  intros Hu1 Hu2 Hn1 Hn2 Hkey. unfold storage_key in Hkey.
  apply String.app_inj in Hkey.
  apply (app_separator_inj "/") in Hkey as [-> Hkey]; [| done..].
  apply (app_separator_inj "-") in Hkey as [Hnow Hrest];
    [| by apply string_of_Z_digits..].
  apply string_of_Z_inj in Hnow. done.
Qed.

Lemma fileExt_no_dot (file : File) : has_char "." (fileExt_of file) = false.
Proof.
  unfold fileExt_of, pop_str.
  pose proof (split_segments "." (file_name file)) as Hseg.
  destruct (last (split "." (file_name file))) as [ext|] eqn:Hlast; [| done].
  apply last_Some in Hlast as [init Hinit]. rewrite Hinit in Hseg.
  apply Forall_app in Hseg as [_ Hext]. by inversion Hext.
Qed.

Lemma app_last_separator_inj (c : ascii) (s1 s2 t1 t2 : string) :
  has_char c t1 = false → has_char c t2 = false →
  (s1 ++ String c t1 = s2 ++ String c t2)%string → s1 = s2 ∧ t1 = t2.
Proof.
  intros H1 H2. revert s2.
  induction s1 as [|a s1 IH]; intros [|a2 s2] Heq.
  - by injection Heq as ->.
  - injection Heq as _ Heq. rewrite Heq, has_char_app in H1. cbn in H1.
    by rewrite Ascii.eqb_refl, orb_true_r in H1.
  - injection Heq as _ Heq. rewrite <- Heq, has_char_app in H2. cbn in H2.
    by rewrite Ascii.eqb_refl, orb_true_r in H2.
  - injection Heq as -> Heq. destruct (IH _ Heq) as [-> ->]. done.
Qed.

(** C8, amended.  For two uploads by one principal in one millisecond,
    whatever the two files and the two random draws, the derived keys are
    equal exactly when [substring(7)] keeps the same text of both draws
    and the two file names have the same extension: the keys are distinct
    as soon as the kept texts differ or the extensions differ, and only
    then. *)
Theorem storage_key_eq_iff (uid : string) (now : Z) (rnd1 rnd2 : string)
    (file1 file2 : File) :
  storage_key uid now rnd1 (fileExt_of file1) = storage_key uid now rnd2 (fileExt_of file2)
  ↔ substring_from 7 rnd1 = substring_from 7 rnd2
    ∧ fileExt_of file1 = fileExt_of file2.
Proof.
  unfold storage_key. split.
  - intros H. repeat apply String.app_inj in H.
    by apply (app_last_separator_inj ".") in H; [| apply fileExt_no_dot..].
  - by intros [-> ->].
Qed.


(** ** File sizes, further *)

Lemma toFixed2_whole (n d : Z) : 0 < d → toFixed2 (n * d) d = 100 * n.
Proof.
  intros Hd. unfold toFixed2. symmetry.
  apply Z.div_unique with (r := d); [lia | nia].
Qed.

Lemma parseFloat_toString_whole (n : Z) : parseFloat_toString (100 * n) = string_of_Z n.
Proof.
  unfold parseFloat_toString.
  replace ((100 * n) mod 100) with 0 by (rewrite Z.mul_comm; by rewrite Z.mod_mul).
  replace ((100 * n) / 100) with n by (rewrite Z.mul_comm; by rewrite Z.div_mul).
  done.
Qed.

(** A whole number of units is shown as that number, without decimals:
    [n] bytes below 1024 as "n Bytes", [n * 1024] as "n KB", and so on up
    to GB. *)
Theorem formatFileSize_whole_units (n : Z) (j : nat) (unit : string) :
  1 ≤ n < 1024 →
  sizes !! j = Some unit →
  formatFileSize (n * 1024 ^ Z.of_nat j) = (string_of_Z n ++ " " ++ unit)%string.
Proof.
  intros Hn Hunit.
  assert (Hj : (j < 4)%nat) by (apply lookup_lt_Some in Hunit; exact Hunit).
  assert (Hpow : 0 < 1024 ^ Z.of_nat j) by (apply Z.pow_pos_nonneg; lia).
  assert (Hlog : floor_log 1024 (n * 1024 ^ Z.of_nat j) = Z.of_nat j).
  { rewrite floor_log_unit.
    - f_equal. unfold spec_unit.
      destruct j as [|[|[|[|j]]]]; [| | | | lia];
        simpl Z.of_nat;
        [ change (1024 ^ 0) with 1 | change (1024 ^ 1) with 1024
        | change (1024 ^ 2) with 1048576 | change (1024 ^ 3) with 1073741824 ];
        change (1024 ^ 2) with 1048576; change (1024 ^ 3) with 1073741824;
        repeat case_match; rewrite ?Z.leb_le, ?Z.leb_gt in *; lia.
    - split; [lia |].
      destruct j as [|[|[|[|j]]]]; [| | | | lia];
        simpl Z.of_nat;
        [ change (1024 ^ 0) with 1 | change (1024 ^ 1) with 1024
        | change (1024 ^ 2) with 1048576 | change (1024 ^ 3) with 1073741824 ];
        change (1024 ^ 4) with 1099511627776; lia. }
  unfold formatFileSize.
  destruct (n * 1024 ^ Z.of_nat j =? 0) eqn:Hz; [apply Z.eqb_eq in Hz; lia |].
  cbv zeta. rewrite Hlog, Nat2Z.id, Hunit, toFixed2_whole by done.
  by rewrite parseFloat_toString_whole.
Qed.

(** From one tebibyte to below 2^49 bytes the unit printed is
    "undefined", and the number in front of it is the size in units of
    1024^4, to two decimals. *)
Theorem formatFileSize_undefined_beyond (bytes : Z) :
  1024 ^ 4 ≤ bytes < 2 ^ 49 →
  formatFileSize bytes =
    (parseFloat_toString (toFixed2 bytes (1024 ^ 4)) ++ " undefined")%string.
Proof.
  intros [Hlo Hhi].
  assert (Hpos : 0 < bytes) by (change (1024 ^ 4) with 1099511627776 in Hlo; lia).
  change (1024 ^ 4) with (2 ^ 40) in Hlo.
  apply Z.log2_le_pow2 in Hlo; [| done].
  apply Z.log2_lt_pow2 in Hhi; [| done].
  assert (Hi : floor_log 1024 bytes = 4).
  { unfold floor_log. change (Z.log2 1024) with 10.
    generalize dependent (Z.log2 bytes). intros. Z.div_mod_to_equations. lia. }
  unfold formatFileSize.
  destruct (bytes =? 0) eqn:Hz; [apply Z.eqb_eq in Hz; lia |].
  cbv zeta. by rewrite Hi.
Qed.

(** ** Accounts *)

Section AuthFacts.
Import Auth.
Context {B : Type} `{auth : SupabaseAuth B}.

(** Registration succeeds exactly when the sign-up reports no error, and
    then returns the sign-up's user, whether or not the profile row could
    be written; a sign-up error is the caller's failure message. *)
Theorem register_outcome (amb : Ambient) (userData : UserData) (b : B) :
  (register amb userData b).2 =
    match error (auth_signUp (email userData) (password userData) (name userData) b).2 with
    | Some authError => Failure (message authError)
    | None =>
        Success (data (auth_signUp (email userData) (password userData)
                         (name userData) b).2)
    end.
Proof.
  unfold register, guarded, register_try, mbind, AM_bind, call_signUp.
  destruct (auth_signUp _ _ _ b) as [b1 authData]. cbn [fst snd].
  destruct (error authData) as [e|]; [done |].
  destruct (data authData) as [user|]; [| done].
  unfold call_insert_rows. destruct (db_insert_rows _ _ b1) as [b2 [profileError|]]; done.
Qed.

(** A profile row is only written after a sign-up that returned a user
    and no error; it goes to [profiles] and carries that user's id and the
    email and name of the form. *)
Theorem register_writes_profile (amb : Ambient) (userData : UserData) (b : B) :
  ∀ table rows,
    EvInsertRows table rows ∈ (register amb userData b).1.2 →
    ∃ user,
      (auth_signUp (email userData) (password userData) (name userData) b).2 =
        {| data := Some user; error := None |}
      ∧ table = "profiles"
      ∧ rows = [profile_record (user_id user) (email userData) (name userData)
                  (toISOString amb)]
      ∧ profile_record (user_id user) (email userData) (name userData)
          (toISOString amb) !! "id" = Some (VStr (user_id user)).
Proof.
  intros table rows.
  unfold register, guarded, register_try, mbind, AM_bind, call_signUp.
  destruct (auth_signUp _ _ _ b) as [b1 [authUser authError]]. cbn [fst snd error data].
  destruct authError as [e|]; [cbn; in_trace |].
  destruct authUser as [user|]; [| cbn; in_trace].
  unfold call_insert_rows. destruct (db_insert_rows _ _ b1) as [b2 [profileError|]];
    cbn; intros Hin; exists user;
    (assert (Heq : EvInsertRows table rows =
               EvInsertRows "profiles"
                 [profile_record (user_id user) (email userData) (name userData)
                    (toISOString amb)])
       by (revert Hin; in_trace));
    injection Heq as -> ->; repeat split; by simplify_map_eq.
Qed.

(** When the profile row cannot be written the registration still
    succeeds: the user is returned, and the insert error is only logged. *)
Theorem register_survives_profile_failure (amb : Ambient) (userData : UserData)
    (b b1 b2 : B) user profileError :
  auth_signUp (email userData) (password userData) (name userData) b =
    (b1, {| data := Some user; error := None |}) →
  db_insert_rows "profiles"
    [profile_record (user_id user) (email userData) (name userData) (toISOString amb)]
    b1 = (b2, Some profileError) →
  register amb userData b =
    (b2,
     [EvSignUp (email userData) (password userData) (name userData);
      EvInsertRows "profiles"
        [profile_record (user_id user) (email userData) (name userData)
           (toISOString amb)];
      EvConsole "Profile creation error:" profileError],
     Success (Some user)).
Proof.
  intros Hup Hins.
  unfold register, guarded, register_try, mbind, AM_bind, call_signUp.
  rewrite Hup. cbn [error data]. unfold call_insert_rows. by rewrite Hins.
Qed.

(** Signing in and out: one call to the auth service each, with the
    credentials as given; the result is a success exactly when the service
    reports no error, and an error is logged once and handed on as the
    failure message. *)
Lemma login_logout_outcome (email password : string) (b : B) :
  login email password b =
    (let answer := auth_signInWithPassword email password b in
     match error answer.2 with
     | Some e =>
         (answer.1, [EvSignIn email password; EvConsole "Login error:" e],
          Failure (message e))
     | None => (answer.1, [EvSignIn email password], Success (data answer.2))
     end)
  ∧ logout b =
      (let answer := auth_signOut b in
       match answer.2 with
       | Some e => (answer.1, [EvSignOut; EvConsole "Logout error:" e], Failure (message e))
       | None => (answer.1, [EvSignOut], Success tt)
       end).
Proof.
  split.
  - unfold login, guarded, login_try, mbind, AM_bind, call_signIn.
    destruct (auth_signInWithPassword email password b) as [b1 r]. cbn.
    by destruct (error r).
  - unfold logout, guarded, logout_try, mbind, AM_bind, call_signOut.
    destruct (auth_signOut b) as [b1 [e|]]; done.
Qed.

End AuthFacts.

(** ** From registration to the listing *)



(** ** The further properties at work *)

Lemma upload_requires_user_witness :
  uploadVideo MemClient.readings MemClient.clip "title" "text" false
    MoreScenarios.signed_out =
    (MoreScenarios.signed_out,
     [EvAuthGetUser] ++ [EvConsoleError "Upload error:" (Error msg_not_authenticated)],
     Failure msg_not_authenticated)
  ∧ quiet ([EvAuthGetUser]
             ++ [EvConsoleError "Upload error:" (Error msg_not_authenticated)]).
Proof.
  apply (upload_requires_user MemClient.readings MemClient.clip "title" "text" false
           MoreScenarios.signed_out MoreScenarios.signed_out [EvAuthGetUser]).
  reflexivity.
Defined.

Lemma upload_masks_auth_error_witness :
  uploadVideo MemClient.readings MemClient.clip "title" "text" false tt =
    (tt,
     [EvAuthGetUser; EvConsoleError "Get user error:" (Error "Failed to fetch");
      EvConsoleError "Upload error:" (Error msg_not_authenticated)],
     Failure msg_not_authenticated).
Proof.
  apply (upload_masks_auth_error (client := OfflineClient.client)
           MemClient.readings MemClient.clip "title" "text" false tt
           (Error "Failed to fetch")).
  reflexivity.
Defined.

(** The key is taken and the write is made without [upsert]: the store
    refuses it, and the upload fails with the store's message. *)
Lemma upload_storage_failure_witness :
  (uploadVideo MemClient.readings MemClient.clip "title" "text" true
     MoreScenarios.key_taken).2 = Failure "The resource already exists".
Proof.
  destruct (upload_storage_failure MemClient.readings MemClient.clip "title" "text" true
              MoreScenarios.key_taken MoreScenarios.key_taken MoreScenarios.key_taken
              [EvAuthGetUser] MemClient.alice []
              (MemClient.failed "The resource already exists")
              (Error "The resource already exists")) as [Hrun _].
  - reflexivity.
  - apply (bool_decide_unpack _). vm_compute. exact I.
  - vm_compute. discriminate.
  - reflexivity.
  - reflexivity.
  - rewrite Hrun. reflexivity.
Defined.

Lemma upload_success_witness :
  (uploadVideo MemClient.readings MemClient.clip "title" "text" true MemClient.empty).2 =
    Success "https://cdn.example/videos/videos/u1/1700000000000-82mvyr.mp4".
Proof.
  pose (stored := (MemClient.upload "videos" "videos/u1/1700000000000-82mvyr.mp4"
                     MemClient.clip "3600" false MemClient.empty).1.1).
  pose (url := "https://cdn.example/videos/videos/u1/1700000000000-82mvyr.mp4").
  pose (record := video_record "title" "text" MemClient.clip
                    "videos/u1/1700000000000-82mvyr.mp4" url "u1"
                    "2023-11-14T22:13:20.000Z").
  destruct (upload_success MemClient.readings MemClient.clip "title" "text" true
              MemClient.empty MemClient.empty stored
              (MemClient.insert "videos" [record] stored).1
              [EvAuthGetUser] MemClient.alice [(1536, 1536)]
              {| path := "videos/u1/1700000000000-82mvyr.mp4" |}
              (MemClient.ok [record])) as [Hrun _].
  - reflexivity.
  - apply (bool_decide_unpack _). vm_compute. exact I.
  - vm_compute. discriminate.
  - reflexivity.
  - reflexivity.
  - reflexivity.
  - rewrite Hrun. reflexivity.
Defined.

Lemma upload_writes_own_folder_witness :
  "videos" = "videos" ∧ MemClient.clip = MemClient.clip ∧ "3600" = "3600" ∧ false = false
  ∧ file_type MemClient.clip ∈ validTypes
  ∧ file_size MemClient.clip ≤ max_size
  ∧ ∃ u, data (auth_getUser MemClient.empty).2 = Some u
      ∧ error (auth_getUser MemClient.empty).2 = None
      ∧ "videos/u1/1700000000000-82mvyr.mp4" =
          storage_key (user_id u) (Date_now MemClient.readings)
            (random_toString36 MemClient.readings) (fileExt_of MemClient.clip).
Proof.
  apply (upload_writes_own_folder MemClient.readings MemClient.clip "title" "text" false
           MemClient.empty "videos" "videos/u1/1700000000000-82mvyr.mp4"
           MemClient.clip "3600" false).
  by apply (list_elem_of_lookup_2 _ 1%nat).
Defined.

Lemma upload_inserts_after_blob_witness :
  ∃ u d,
    data (auth_getUser MemClient.empty).2 = Some u
    ∧ (let stored :=
         storage_upload "videos"
           (storage_key (user_id u) (Date_now MemClient.readings)
              (random_toString36 MemClient.readings) (fileExt_of MemClient.clip))
           MemClient.clip "3600" false (auth_getUser MemClient.empty).1 in
       error stored.2 = None
       ∧ data stored.2 = Some d
       ∧ "videos" = "videos"
       ∧ [video_record "title" "text" MemClient.clip "videos/u1/1700000000000-82mvyr.mp4"
            "https://cdn.example/videos/videos/u1/1700000000000-82mvyr.mp4" "u1"
            "2023-11-14T22:13:20.000Z"] =
         [video_record "title" "text" MemClient.clip (path d)
            (storage_getPublicUrl "videos" (path d) stored.1.1)
            (user_id u) (toISOString MemClient.readings)]).
Proof.
  apply (upload_inserts_after_blob MemClient.readings MemClient.clip "title" "text" false
           MemClient.empty "videos"
           [video_record "title" "text" MemClient.clip "videos/u1/1700000000000-82mvyr.mp4"
              "https://cdn.example/videos/videos/u1/1700000000000-82mvyr.mp4" "u1"
              "2023-11-14T22:13:20.000Z"]).
  by apply (list_elem_of_lookup_2 _ 3%nat).
Defined.

Lemma userIds_each_owner_once_witness :
  Scenarios.row 2 "second" "u1" !! "uploaded_by" ∈ userIds_of Scenarios.two_by_alice.
Proof.
  apply (proj1 (userIds_each_owner_once Scenarios.two_by_alice)
           (Scenarios.row 2 "second" "u1")).
  by apply (list_elem_of_lookup_2 _ 0%nat).
Defined.

Lemma listing_of_empty_catalogue_witness :
  getAllVideos MemClient.empty =
    (MemClient.empty, [EvSelectOrder "videos" "*" "created_at" false], Success []).
Proof.
  apply (listing_of_empty_catalogue MemClient.empty MemClient.empty (MemClient.ok [])).
  - reflexivity.
  - reflexivity.
  - right. reflexivity.
Defined.

Lemma listing_fetch_error_witness :
  getAllVideos tt =
    (tt,
     [EvSelectOrder "videos" "*" "created_at" false;
      EvConsoleError "Get videos error:" (Error "Failed to fetch")],
     Failure "Failed to fetch").
Proof.
  apply (listing_fetch_error (client := OfflineClient.client) tt tt OfflineClient.down
           (Error "Failed to fetch")); reflexivity.
Defined.

Lemma selected_single_contract : single_contract MoreScenarios.selected.
Proof.
  intros table columns column v m. cbn.
  unfold MemClient.select_single, MoreScenarios.selected.
  destruct (filter _ _) as [|r [|r' rows]]; cbn; eauto.
Qed.

Lemma detail_of_single_match_witness :
  getVideoById (VNum 2) Scenarios.orphaned =
    (Scenarios.orphaned,
     [EvSelectSingle "videos" detail_columns "id" (VNum 2)],
     Success (Some (Scenarios.row 2 "second" "u9"))).
Proof.
  pose proof (detail_of_single_match MoreScenarios.selected (VNum 2) Scenarios.orphaned
                (Scenarios.row 2 "second" "u9") selected_single_contract) as Hrun.
  apply Hrun. vm_compute. reflexivity.
Defined.

Lemma detail_of_ambiguous_id_fails_witness :
  ∃ e,
    getVideoById (VNum 7) MoreScenarios.twins =
      (MoreScenarios.twins,
       [EvSelectSingle "videos" detail_columns "id" (VNum 7);
        EvConsoleError "Get video error:" e],
       Failure (message e)).
Proof.
  destruct (detail_of_ambiguous_id_fails MoreScenarios.selected (VNum 7)
              MoreScenarios.twins selected_single_contract) as [e Hrun].
  - vm_compute. lia.
  - exists e. exact Hrun.
Defined.

Lemma profile_store_single_contract :
  single_contract (H := ProfileStore.client) ProfileStore.selected.
Proof.
  intros table columns column v rows. cbn. unfold ProfileStore.select_single.
  destruct (ProfileStore.selected rows table column v) as [|r [|r' more]]; cbn; eauto.
Qed.

(** Alice's profile is in the table: her id returns it, and an id nobody
    has returns [null], logged. *)
Lemma getUserProfile_lookup_witness :
  getUserProfile (VStr "u1") [Scenarios.alice_profile] =
    ([Scenarios.alice_profile],
     [EvSelectSingle "profiles" "*" "id" (VStr "u1")],
     inr (Some Scenarios.alice_profile))
  ∧ ∃ e,
      getUserProfile (VStr "u9") [Scenarios.alice_profile] =
        ([Scenarios.alice_profile],
         [EvSelectSingle "profiles" "*" "id" (VStr "u9");
          EvConsoleError "Get profile error:" e],
         inr None).
Proof.
  split.
  - exact (getUserProfile_lookup (client := ProfileStore.client) ProfileStore.selected
             (VStr "u1") [Scenarios.alice_profile] profile_store_single_contract).
  - exact (getUserProfile_lookup (client := ProfileStore.client) ProfileStore.selected
             (VStr "u9") [Scenarios.alice_profile] profile_store_single_contract).
Defined.

Lemma fileExt_after_last_dot_witness :
  ∃ stem, file_name MemClient.clip = (stem ++ "." ++ fileExt_of MemClient.clip)%string.
Proof.
  apply (proj2 (proj2 (fileExt_after_last_dot MemClient.clip))). reflexivity.
Defined.

Lemma storage_key_inj_witness :
  "u1" = "u1" ∧ 1700000000000 = 1700000000000
  ∧ (substring_from 7 "0.i" ++ "." ++ "mp4" = substring_from 7 "0.9" ++ "." ++ "mp4")%string.
Proof.
  apply (storage_key_inj "u1" "u1" 1700000000000 1700000000000 "0.i" "0.9" "mp4" "mp4");
    [reflexivity | reflexivity | lia | lia | reflexivity].
Defined.

Lemma formatFileSize_refines_spec_witness : formatFileSize 1536 = formatSize_spec 1536.
Proof. apply formatFileSize_refines_spec. split; [lia | reflexivity]. Defined.

Lemma formatFileSize_whole_units_witness : formatFileSize 52428800 = "50 MB".
Proof.
  apply (formatFileSize_whole_units 50 2 "MB"); [lia | reflexivity].
Defined.

Lemma formatFileSize_undefined_beyond_witness :
  formatFileSize 5497558138880 = "5 undefined".
Proof.
  apply (formatFileSize_undefined_beyond 5497558138880).
  split; [vm_compute; discriminate | reflexivity].
Defined.

Lemma register_writes_profile_witness :
  ∃ user,
    (Auth.auth_signUp (Auth.email Auth.bob_form) (Auth.password Auth.bob_form)
       (Auth.name Auth.bob_form) Auth.nobody).2 =
      {| data := Some user; error := None |}
    ∧ "profiles" = "profiles"
    ∧ [Auth.profile_record "id-bob@example.org" "bob@example.org" "Bob"
         "2023-11-14T22:13:20.000Z"] =
      [Auth.profile_record (user_id user) (Auth.email Auth.bob_form)
         (Auth.name Auth.bob_form) (toISOString MemClient.readings)]
    ∧ Auth.profile_record (user_id user) (Auth.email Auth.bob_form)
        (Auth.name Auth.bob_form) (toISOString MemClient.readings) !! "id" =
      Some (VStr (user_id user)).
Proof.
  apply (register_writes_profile MemClient.readings Auth.bob_form Auth.nobody "profiles"
           [Auth.profile_record "id-bob@example.org" "bob@example.org" "Bob"
              "2023-11-14T22:13:20.000Z"]).
  by apply (list_elem_of_lookup_2 _ 1%nat).
Defined.

Lemma register_survives_profile_failure_witness :
  (Auth.register MemClient.readings Auth.bob_form Auth.nobody_profiles_down).2 =
    Success (Some {| user_id := "id-bob@example.org" |}).
Proof.
  pose (signed_up := (Auth.signUp "bob@example.org" "hunter22" "Bob"
                        Auth.nobody_profiles_down).1).
  rewrite (register_survives_profile_failure MemClient.readings Auth.bob_form
             Auth.nobody_profiles_down signed_up signed_up
             {| user_id := "id-bob@example.org" |} (Error "profiles unavailable"));
    reflexivity.
Defined.

